(** * OrchidChallenge: extraction, ranking and normalisation pipeline

    A shallow embedding of the data-shaping logic of the website cloner
    (backend/main.py, backend/app/scraper.py, backend/app/llm_cloner.py),
    the properties its specification states about it (C1 to C10), and
    further properties read off the code (X1 to X25).

    Conventions.
    - A string is a sequence of bytes, the UTF-8 encoding of the Python or
      JavaScript string.  Every pattern the code searches for is ASCII, so
      prefix tests, searches and replacements agree with the code-point view.
    - Python and JavaScript integers are [Z].
    - A Python dict is an association list in insertion order with unique
      keys; a JavaScript [Set] of strings is a [gset string].
    - A slice bound counts bytes.  The bounds the code computes come from
      searches, so the slices agree with Python's; the one negative bound,
      [-1] after a failed search, cuts the last byte, which is the last
      character when that one is ASCII.  Where the code counts characters
      ([len], [s[:n]], [s.length]) the model counts them too.
    - An exception is a value of [exn]; code that may raise returns
      [exn + A], or [option A] where only the fact that it raises matters. *)

From stdpp Require Import base list strings gmap pretty.
From Stdlib Require Import ZArith Lia Ascii Sorted.

(** stdpp freezes [String.append] under [simpl]; appends to literal text are
    meant to compute here. *)
#[local] Arguments String.append !s1 s2 : simpl nomatch.

(* ================================================================== *)
(** * Part I: definitions                                               *)
(* ================================================================== *)

(** ** String primitives of the two host languages *)
Module Str.

(** [s.startswith(p)] / [s.startsWith(p)] *)
Fixpoint starts_with (p s : string) : bool :=
  match p, s with
  | EmptyString, _ => true
  | String a p', String b s' => if Ascii.eqb a b then starts_with p' s' else false
  | String _ _, EmptyString => false
  end.

(** The rest of [s] after the prefix [p], when [s] starts with [p]. *)
Fixpoint strip_prefix (p s : string) : option string :=
  match p, s with
  | EmptyString, _ => Some s
  | String a p', String b s' => if Ascii.eqb a b then strip_prefix p' s' else None
  | String _ _, EmptyString => None
  end.

(** [sub in s] *)
Fixpoint contains (sub s : string) : bool :=
  starts_with sub s ||
  match s with
  | EmptyString => false
  | String _ r => contains sub r
  end.

Fixpoint drop (n : nat) (s : string) : string :=
  match n, s with
  | O, _ => s
  | S n', String _ r => drop n' r
  | S _, EmptyString => EmptyString
  end.

(** Lowest index [>= i] at which [sub] occurs, [s] being the text from
    index [i] on. *)
Fixpoint find_at (sub s : string) (i : nat) : option nat :=
  if starts_with sub s then Some i
  else match s with
       | EmptyString => None
       | String _ r => find_at sub r (S i)
       end.

(** Highest index at which [sub] occurs. *)
Fixpoint rfind_at (sub s : string) (i : nat) : option nat :=
  match (match s with
         | EmptyString => None
         | String _ r => rfind_at sub r (S i)
         end) with
  | Some j => Some j
  | None => if starts_with sub s then Some i else None
  end.

(** Python's treatment of a slice bound: a negative bound counts from the
    end, and every bound is clamped to [0, len]. *)
Definition clamp_index (len i : Z) : Z :=
  if (i <? 0)%Z then Z.max (i + len) 0 else Z.min i len.

(** [s.find(sub, start)]: [-1] when there is no occurrence. *)
Definition find (sub s : string) (start : Z) : Z :=
  let len := Z.of_nat (String.length s) in
  if (len <? start)%Z then (-1)%Z
  else
    let k := Z.to_nat (clamp_index len start) in
    match find_at sub (drop k s) k with
    | Some i => Z.of_nat i
    | None => (-1)%Z
    end.

(** [s.rfind(sub)] *)
Definition rfind (sub s : string) : Z :=
  match rfind_at sub s 0 with
  | Some i => Z.of_nat i
  | None => (-1)%Z
  end.

(** [s[lo:hi]]; [None] is an omitted bound. *)
Definition slice (s : string) (lo hi : option Z) : string :=
  let len := Z.of_nat (String.length s) in
  let a := from_option (clamp_index len) 0%Z lo in
  let b := from_option (clamp_index len) len hi in
  String.substring (Z.to_nat a) (Z.to_nat (b - a)) s.

Definition code (c : ascii) : nat := nat_of_ascii c.

(** ASCII white space as [str.strip()] sees it: TAB..CR, FS..US, SPACE. *)
Definition is_ascii_space (c : ascii) : bool :=
  let n := code c in
  ((9 <=? n) && (n <=? 13)) || ((28 <=? n) && (n <=? 32)).

(** [s.lstrip()]: besides ASCII white space, the UTF-8 encodings of the
    other white-space code points (U+0085, U+00A0, U+1680, U+2000..U+200A,
    U+2028, U+2029, U+202F, U+205F, U+3000) are removed. *)
Fixpoint lstrip (s : string) : string :=
  match s with
  | EmptyString => s
  | String c r =>
      if is_ascii_space c then lstrip r
      else
        match code c, r with
        | 194, String d r' =>
            if (code d =? 133) || (code d =? 160) then lstrip r' else s
        | 225, String d (String e r') =>
            if (code d =? 154) && (code e =? 128) then lstrip r' else s
        | 226, String d (String e r') =>
            if ((code d =? 128) &&
                (((128 <=? code e) && (code e <=? 138)) ||
                 (code e =? 168) || (code e =? 169) || (code e =? 175)))
               || ((code d =? 129) && (code e =? 159))
            then lstrip r' else s
        | 227, String d (String e r') =>
            if (code d =? 128) && (code e =? 128) then lstrip r' else s
        | _, _ => s
        end
  end.

(** [s.rstrip()]: a suffix made of white space only is removed. *)
Fixpoint rstrip (s : string) : string :=
  match lstrip s with
  | EmptyString => EmptyString
  | _ =>
      match s with
      | EmptyString => EmptyString
      | String c r => String c (rstrip r)
      end
  end.

(** [s.strip()] *)
Definition strip (s : string) : string := rstrip (lstrip s).

(** The loop of [s.replace(old, new)] for a non-empty [old]: occurrences
    are replaced from left to right without overlap; [skip] counts the
    characters of the occurrence just replaced that are still to pass. *)
Fixpoint replace_go (old new : string) (skip : nat) (s : string) : string :=
  match s with
  | EmptyString => EmptyString
  | String c r =>
      match skip with
      | S k => replace_go old new k r
      | O =>
          if starts_with old s
          then new +:+ replace_go old new (String.length old - 1) r
          else String c (replace_go old new 0 r)
      end
  end.

(** With an empty [old], Python puts [new] before every character and at
    the end. *)
Fixpoint intersperse (new s : string) : string :=
  match s with
  | EmptyString => new
  | String c r => new +:+ String c (intersperse new r)
  end.

(** [s.replace(old, new)] *)
Definition replace (old new s : string) : string :=
  match old with
  | EmptyString => intersperse new s
  | String _ _ => replace_go old new 0 s
  end.

Definition is_digit (c : ascii) : bool := (48 <=? code c) && (code c <=? 57).
Definition is_upper (c : ascii) : bool := (65 <=? code c) && (code c <=? 90).
Definition is_lower (c : ascii) : bool := (97 <=? code c) && (code c <=? 122).

(** The regular-expression classes [[a-zA-Z0-9]] and [\w]. *)
Definition is_alnum (c : ascii) : bool := is_digit c || is_upper c || is_lower c.
Definition is_word (c : ascii) : bool := is_alnum c || (code c =? 95).

Definition lower_char (c : ascii) : ascii :=
  if is_upper c then ascii_of_nat (code c + 32) else c.

(** [s.toLowerCase()], on the ASCII letters. *)
Fixpoint lower (s : string) : string :=
  match s with
  | EmptyString => EmptyString
  | String c r => String (lower_char c) (lower r)
  end.

Fixpoint all_chars (p : ascii -> bool) (s : string) : bool :=
  match s with
  | EmptyString => true
  | String c r => p c && all_chars p r
  end.

(** [sub] occurs in [s], as a proposition. *)
Definition occurs (sub s : string) : Prop :=
  exists pre post, s = pre +:+ sub +:+ post.

End Str.


(** ** Resolver: the helpers [resolveUrl] and [getImageFormat] of the
    extraction script (backend/main.py) *)
Module Resolver.
Import Str.

(** [resolveUrl(url)]; [origin] is [window.location.origin].  The empty
    string is the falsy source, for which the script returns [null]. *)
Definition resolveUrl (origin url : string) : option string :=
  match url with
  | EmptyString => None
  | String _ _ =>
      if starts_with "data:" url then Some url
      else if starts_with "//" url then Some ("https:" +:+ url)
      else if starts_with "/" url then Some (origin +:+ url)
      else if negb (starts_with "http" url) then Some (origin +:+ "/" +:+ url)
      else Some url
  end.

(** A greedy group [(cls+)] followed by the rest of the pattern [k]: the
    longest run is tried first, then shorter ones, as a backtracking
    matcher does.  The result is the text captured by the group. *)
Fixpoint greedy_plus (cls : ascii -> bool) (k : string -> bool) (s : string)
  : option string :=
  match s with
  | EmptyString => None
  | String c r =>
      if cls c then
        match greedy_plus cls k r with
        | Some m => Some (String c m)
        | None => if k r then Some (String c EmptyString) else None
        end
      else None
  end.

(** [s.match(re)] for an unanchored pattern: the match attempt [m] is made
    at every position from the left, the first success wins. *)
Fixpoint regex_search (m : string -> option string) (s : string) : option string :=
  match m s with
  | Some g => Some g
  | None =>
      match s with
      | EmptyString => None
      | String _ r => regex_search m r
      end
  end.

(** One attempt of [/data:image\/(\w+)/] at the start of [s]. *)
Definition match_data_image (s : string) : option string :=
  match strip_prefix "data:image/" s with
  | Some r => greedy_plus is_word (fun _ => true) r
  | None => None
  end.

(** The tail [(?:\?|$)] of the extension pattern. *)
Definition query_or_end (s : string) : bool :=
  match s with
  | EmptyString => true
  | String _ _ => starts_with "?" s
  end.

(** One attempt of [/\.([a-zA-Z0-9]+)(?:\?|$)/] at the start of [s]. *)
Definition match_extension (s : string) : option string :=
  match strip_prefix "." s with
  | Some r => greedy_plus is_alnum query_or_end r
  | None => None
  end.

(** [getImageFormat(src)] *)
Definition getImageFormat (src : string) : string :=
  if starts_with "data:" src then
    match regex_search match_data_image src with
    | Some g => g
    | None => "unknown"
    end
  else
    match regex_search match_extension src with
    | Some g => lower g
    | None => "unknown"
    end.

(** The run of class characters cannot go on into [rest]. *)
Definition run_ends (cls : ascii -> bool) (rest : string) : bool :=
  match rest with
  | EmptyString => true
  | String c _ => negb (cls c)
  end.

(** At offset [i] of [s] stands [data:image/] followed by the word [w], and
    the word ends there. *)
Definition data_image_at (s : string) (i : nat) (w : string) : Prop :=
  exists rest, drop i s = "data:image/" +:+ w +:+ rest /\ w <> "" /\
    all_chars is_word w = true /\ run_ends is_word rest = true.

(** At offset [i] of [s] stands a dot followed by the letters and digits [e],
    and after them comes a question mark or the end of [s]. *)
Definition extension_at (s : string) (i : nat) (e : string) : Prop :=
  exists rest, drop i s = "." +:+ e +:+ rest /\ e <> "" /\
    all_chars is_alnum e = true /\ query_or_end rest = true.

(** The longest prefix of [s] made of characters of the class, and what
    follows it. *)
Fixpoint take_while (p : ascii -> bool) (s : string) : string :=
  match s with
  | EmptyString => EmptyString
  | String c r => if p c then String c (take_while p r) else EmptyString
  end.

Fixpoint drop_while (p : ascii -> bool) (s : string) : string :=
  match s with
  | EmptyString => EmptyString
  | String c r => if p c then drop_while p r else s
  end.

(** A MIME subtype ends at the first [;] or [,] of the data-URI. *)
Definition is_subtype_char (c : ascii) : bool :=
  negb ((code c =? 59) || (code c =? 44)).

(** The text after the last dot of [s], if [s] has a dot. *)
Fixpoint after_last_dot (s : string) : option string :=
  match s with
  | EmptyString => None
  | String c r =>
      match after_last_dot r with
      | Some t => Some t
      | None => if (code c =? 46) then Some r else None
      end
  end.

(** The format rule as the specification words it, for comparison with
    [getImageFormat]: for a data-URI the MIME subtype after [image/]; for
    another source the extension after the last dot, lower-cased, an extension
    being letters and digits that end the source or precede a question mark;
    ["unknown"] when neither is there. *)
Definition spec_format (src : string) : string :=
  if starts_with "data:" src then
    match strip_prefix "data:image/" src with
    | Some r =>
        match take_while is_subtype_char r with
        | EmptyString => "unknown"
        | sub => sub
        end
    | None => "unknown"
    end
  else
    match after_last_dot src with
    | Some t =>
        match take_while is_alnum t with
        | EmptyString => "unknown"
        | ext => if query_or_end (drop_while is_alnum t) then lower ext else "unknown"
        end
    | None => "unknown"
    end.

End Resolver.

(** ** Deduplicator and ranker: the [seenUrls]/[allImages] loop, the sort and
    the cap of the extraction script (backend/main.py) *)
Module Ranker.
Import Str Resolver.

(** What the script reads off one element before resolution, in the loop
    over the selectors or in the scan of computed background images (both
    feed the same [seenUrls] and [allImages]). *)
Record RawCandidate := {
  raw_src : string;
  raw_alt : string;
  raw_width : Z;
  raw_height : Z;
  raw_context : string
}.

(** An entry of [allImages]. *)
Record Image := {
  src : string;
  alt : string;
  width : Z;
  height : Z;
  format : string;
  context : string;
  is_base64 : bool
}.

Definition make_image (resolvedUrl : string) (r : RawCandidate) : Image :=
  {| src := resolvedUrl;
     alt := raw_alt r;
     width := raw_width r;
     height := raw_height r;
     format := getImageFormat resolvedUrl;
     context := raw_context r;
     is_base64 := starts_with "data:" resolvedUrl |}.

(** The state of the harvest: [seenUrls] and [allImages]. *)
Definition harvest_state : Type := gset string * list Image.

(** The body run for one element:
    [if (src) { resolvedUrl = resolveUrl(src);
                if (resolvedUrl && !seenUrls.has(resolvedUrl)) {...} }] *)
Definition push_candidate (origin : string) (st : harvest_state) (r : RawCandidate)
  : harvest_state :=
  match resolveUrl origin (raw_src r) with
  | Some resolvedUrl =>
      if decide (resolvedUrl ∈ st.1) then st
      else ({[ resolvedUrl ]} ∪ st.1, st.2 ++ [make_image resolvedUrl r])
  | None => st
  end.

Definition harvest (origin : string) (raws : list RawCandidate) : list Image :=
  (foldl (push_candidate origin) (∅, []) raws).2.

(** The candidate an element yields when its source resolves. *)
Definition candidate (origin : string) (r : RawCandidate) : option Image :=
  (fun resolvedUrl => make_image resolvedUrl r) <$> resolveUrl origin (raw_src r).

(** Every candidate in discovery order, repeated URLs included. *)
Definition candidates (origin : string) (raws : list RawCandidate) : list Image :=
  omap (candidate origin) raws.

(** [c] stands at index [i] of [l] and no earlier entry of [l] has its URL. *)
Definition first_with_src (l : list Image) (i : nat) (c : Image) : Prop :=
  l !! i = Some c /\ forall j c', j < i -> l !! j = Some c' -> src c' <> src c.

Definition area (i : Image) : Z := (width i * height i)%Z.

(** The comparator [(a, b) => (b.width * b.height) - (a.width * a.height)]. *)
Definition by_area_desc (a b : Image) : Z := (area b - area a)%Z.

(** [Array.prototype.sort(cmp)] is a stable sort; it is modelled by
    insertion from the right, which is one. *)
Fixpoint sort_insert {A} (cmp : A -> A -> Z) (x : A) (l : list A) : list A :=
  match l with
  | [] => [x]
  | y :: ys => if (cmp x y <=? 0)%Z then x :: l else y :: sort_insert cmp x ys
  end.

Definition js_sort {A} (cmp : A -> A -> Z) (l : list A) : list A :=
  foldr (sort_insert cmp) [] l.

(** The part of the returned object that concerns images. *)
Record Ranked := {
  allImages : list Image;
  totalImagesFound : nat
}.

(** Harvest, [allImages.sort(...)], then
    [allImages.slice(0, 100)] and [allImages.length]. *)
Definition rank (origin : string) (raws : list RawCandidate) : Ranked :=
  let sorted := js_sort by_area_desc (harvest origin raws) in
  {| allImages := take 100 sorted; totalImagesFound := length sorted |}.

End Ranker.


(** ** Python values and exceptions *)
Module Py.
Import Str.

(** The JSON-like values a snapshot dictionary holds (floats are not
    modelled). *)
#[local] Set Warnings "-register-all".
Inductive pyval :=
  | PNone
  | PBool (b : bool)
  | PInt (n : Z)
  | PStr (s : string)
  | PList (l : list pyval)
  | PDict (d : list (string * pyval)).

Definition dict : Type := list (string * pyval).

Inductive exn :=
  | TypeError (msg : string)
  | ValueError (msg : string)
  | KeyError (key_repr : string)
  | Exception (msg : string).

(** [str(e)] *)
Definition exn_str (e : exn) : string :=
  match e with
  | TypeError m | ValueError m | Exception m => m
  | KeyError k => k
  end.

#[global] Instance exn_ret : MRet (sum exn) := fun _ x => inr x.
#[global] Instance exn_bind : MBind (sum exn) := fun _ _ f m =>
  match m with
  | inl e => inl e
  | inr x => f x
  end.

(** [try: body  except Exception as e: handler(e)] *)
Definition try_except {A} (body : exn + A) (handler : exn -> exn + A) : exn + A :=
  match body with
  | inl e => handler e
  | inr x => inr x
  end.

(** [d.get(k)], [None] standing for an absent key here. *)
Fixpoint lookup_key (k : string) (d : dict) : option pyval :=
  match d with
  | [] => None
  | (k', v) :: d' => if String.eqb k k' then Some v else lookup_key k d'
  end.

(** [d.get(k, default)] and [d.get(k)] *)
Definition get_default (d : dict) (k : string) (default : pyval) : pyval :=
  from_option id default (lookup_key k d).
Definition get (d : dict) (k : string) : pyval := get_default d k PNone.

(** [k in d] *)
Definition has_key (k : string) (d : dict) : bool :=
  match lookup_key k d with Some _ => true | None => false end.

(** [d[k]] *)
Definition getitem (d : dict) (k : string) : exn + pyval :=
  match lookup_key k d with
  | Some v => inr v
  | None => inl (KeyError ("'" +:+ k +:+ "'"))
  end.

(** [d[k] = v]: an existing key keeps its place, a new one goes last. *)
Fixpoint setitem (d : dict) (k : string) (v : pyval) : dict :=
  match d with
  | [] => [(k, v)]
  | (k', v') :: d' =>
      if String.eqb k k' then (k, v) :: d' else (k', v') :: setitem d' k v
  end.

(** Truth value of an object. *)
Definition truthy (v : pyval) : bool :=
  match v with
  | PNone => false
  | PBool b => b
  | PInt n => negb (n =? 0)%Z
  | PStr s => negb (String.eqb s "")
  | PList l => match l with [] => false | _ => true end
  | PDict d => match d with [] => false | _ => true end
  end.

Definition type_name (v : pyval) : string :=
  match v with
  | PNone => "NoneType"
  | PBool _ => "bool"
  | PInt _ => "int"
  | PStr _ => "str"
  | PList _ => "list"
  | PDict _ => "dict"
  end.

(** [v == lit] for a string literal [lit]. *)
Definition eq_str (v : pyval) (lit : string) : bool :=
  match v with
  | PStr s => String.eqb s lit
  | _ => false
  end.

(** A continuation byte of a UTF-8 sequence. *)
Definition is_continuation (c : ascii) : bool := (128 <=? code c) && (code c <=? 191).

(** The characters of a string, each with its continuation bytes. *)
Fixpoint chars (s : string) : list string :=
  match s with
  | EmptyString => []
  | String c r =>
      let cs := chars r in
      match r, cs with
      | String d _, x :: xs =>
          if is_continuation d then String c x :: xs
          else String c EmptyString :: cs
      | _, _ => String c EmptyString :: cs
      end
  end.

(** The elements a [for] loop visits: the items of a list, the characters
    of a string, the keys of a dict; other objects are not iterable. *)
Definition iterate (v : pyval) : exn + list pyval :=
  match v with
  | PList l => inr l
  | PStr s => inr (PStr <$> chars s)
  | PDict d => inr ((fun kv => PStr kv.1) <$> d)
  | _ => inl (TypeError ("'" +:+ type_name v +:+ "' object is not iterable"))
  end.

Section Stringify.
(** [repr] of a list or a dict is left abstract. *)
Variable py_repr : pyval -> string.

(** [str(v)] *)
Definition py_str (v : pyval) : string :=
  match v with
  | PNone => "None"
  | PBool true => "True"
  | PBool false => "False"
  | PInt n => pretty n
  | PStr s => s
  | PList _ | PDict _ => py_repr v
  end.
End Stringify.

(** [l[:hi]] on a list; [None] is an omitted bound. *)
Definition list_slice_to {A} (l : list A) (hi : option Z) : list A :=
  match hi with
  | None => l
  | Some h => take (Z.to_nat (clamp_index (Z.of_nat (length l)) h)) l
  end.

End Py.

(** ** Safety normalizer: [safe_data_cleanup] (backend/main.py) *)
Module Normalizer.
Import Str Py.

Section Cleanup.
Variable py_repr : pyval -> string.
Abbreviation str := (py_str py_repr).

(** What one element of [navigation] adds to [safe_navigation]. *)
Definition nav_entry (nav : pyval) : list pyval :=
  match nav with
  | PDict d =>
      match get_default d "text" (PStr "") with
      | PStr text =>
          if truthy (PStr text)
          then [PDict [("text", PStr text); ("href", get_default d "href" (PStr "#"))]]
          else []
      | _ => []
      end
  | PStr s => [PDict [("text", PStr s); ("href", PStr "#")]]
  | _ => []
  end.

(** What one element of [headings] adds to [safe_headings]. *)
Definition heading_entry (h : pyval) : list pyval :=
  match h with
  | PDict d =>
      match get_default d "text" (PStr "") with
      | PStr text =>
          if truthy (PStr text)
          then [PDict [("text", PStr text); ("level", get_default d "level" (PStr "h1"))]]
          else []
      | _ => []
      end
  | PStr s => [PDict [("text", PStr s); ("level", PStr "h1")]]
  | _ => []
  end.

(** [if xs: for x in xs: ...] collecting the entries. *)
Definition collect (entry : pyval -> list pyval) (xs : pyval) : exn + list pyval :=
  if truthy xs then
    items ← iterate xs; mret (concat (entry <$> items))
  else mret [].

Definition default_navigation : list pyval :=
  [PDict [("text", PStr "Home"); ("href", PStr "#")];
   PDict [("text", PStr "About"); ("href", PStr "#")]].

Definition default_headings : list pyval :=
  [PDict [("text", PStr "Welcome"); ("level", PStr "h1")]].

(** [if not xs: xs = fallback] *)
Definition or_default (xs fallback : list pyval) : list pyval :=
  match xs with [] => fallback | _ => xs end.

(** The logo kept from the input, if it is a usable one. *)
Definition usable_logo (logo : pyval) : option pyval :=
  match logo with
  | PDict d =>
      if truthy logo then
        if eq_str (get d "type") "text" && truthy (get d "text") then
          Some (PDict [("type", PStr "text");
                       ("text", PStr (str (get_default d "text" (PStr ""))))])
        else if eq_str (get d "type") "image" && truthy (get d "src") then
          Some (PDict [("type", PStr "image");
                       ("src", PStr (str (get_default d "src" (PStr ""))));
                       ("alt", PStr (str (get_default d "alt" (PStr ""))))])
        else None
      else None
  | _ => None
  end.

Definition safe_data_cleanup (data : dict) : exn + dict :=
  let safe_data : dict :=
    [("url", PStr (str (get_default data "url" (PStr ""))));
     ("siteType", PStr (str (get_default data "siteType" (PStr "standard"))));
     ("backgroundColor", PStr (str (get_default data "backgroundColor" (PStr "#ffffff"))));
     ("textColor", PStr (str (get_default data "textColor" (PStr "#333333"))));
     ("fontFamily", PStr (str (get_default data "fontFamily" (PStr "system-ui, sans-serif"))));
     ("title", PStr (str (get_default data "title" (PStr "Website"))));
     ("isDark", PBool (truthy (get_default data "isDark" (PBool false))));
     ("hasSearch", PBool (truthy (get_default data "hasSearch" (PBool false))));
     ("hasVideo", PBool (truthy (get_default data "hasVideo" (PBool false))));
     ("screenshot", PStr (str (get_default data "screenshot" (PStr ""))));
     ("allImages", get_default data "allImages" (PList []));
     ("totalImagesFound", get_default data "totalImagesFound" (PInt 0))] in
  safe_navigation ← collect nav_entry (get_default data "navigation" (PList []));
  let safe_data := setitem safe_data "navigation"
                     (PList (or_default safe_navigation default_navigation)) in
  safe_headings ← collect heading_entry (get_default data "headings" (PList []));
  let safe_data := setitem safe_data "headings"
                     (PList (or_default safe_headings default_headings)) in
  title ← getitem safe_data "title";
  let safe_logo :=
    match usable_logo (get data "logo") with
    | Some l => l
    | None => PDict [("type", PStr "text"); ("text", title)]
    end in
  mret (setitem safe_data "logo" safe_logo).
End Cleanup.

(** The fields coerced with [str(...)], each with its literal default, and
    the fields coerced with [bool(...)], whose default is [False]. *)
Definition string_fields : list (string * string) :=
  [("url", ""); ("siteType", "standard"); ("backgroundColor", "#ffffff");
   ("textColor", "#333333"); ("fontFamily", "system-ui, sans-serif");
   ("title", "Website"); ("screenshot", "")].

Definition flag_fields : list string := ["isDark"; "hasSearch"; "hasVideo"].

(** A value the [if xs: for x in xs] pattern accepts: falsy, or iterable. *)
Definition loopable (v : pyval) : Prop :=
  truthy v = false \/ exists items, iterate v = inr items.

End Normalizer.


(** ** The filter of the [/extract-images] endpoint: [extract_images]
    (backend/main.py) *)
Module Filter.
Import Str Py.

(** The request body.  Every optional field admits [null]. *)
Record ImageExtractRequest := {
  url : string;
  image_limit : option Z;
  min_width : option Z;
  min_height : option Z;
  include_small : option bool
}.

Record ExtractedImage := {
  src : string;
  alt : string;
  width : Z;
  height : Z;
  format : option string;
  context : string;
  is_base64 : bool
}.

Record ImageExtractResponse := {
  success : bool;
  response_url : string;
  total_images : Z;
  images : list ExtractedImage;
  screenshot_base64 : option string;
  error_message : option string
}.

(** What [scrape_with_super_playwright] hands to the endpoint: either
    [{"error": msg}] or the visual data. *)
Record VisualData := {
  allImages : list Ranker.Image;
  totalImagesFound : Z;
  screenshot : string
}.

Inductive ScrapeResult :=
  | ScrapeError (msg : string)
  | ScrapeData (data : VisualData).

(** [a >= b] between an [int] and an optional [int]. *)
Definition py_ge (a : Z) (b : option Z) : exn + bool :=
  match b with
  | Some b => inr (b <=? a)%Z
  | None =>
      inl (TypeError "'>=' not supported between instances of 'int' and 'NoneType'")
  end.

(** The two nested [if] conditions of the loop, with the short-circuit
    evaluation of [and] and [or]. *)
Definition keeps (request : ImageExtractRequest) (img : Ranker.Image) : exn + bool :=
  wide ← py_ge (Ranker.width img) (min_width request);
  if wide : bool then
    high ← py_ge (Ranker.height img) (min_height request);
    if high : bool then
      mret (from_option id false (include_small request)
            || ((100 <=? Ranker.width img)%Z && (100 <=? Ranker.height img)%Z))
    else mret false
  else mret false.

Definition to_extracted (img : Ranker.Image) : ExtractedImage :=
  {| src := Ranker.src img;
     alt := Ranker.alt img;
     width := Ranker.width img;
     height := Ranker.height img;
     format := Some (Ranker.format img);
     context := Ranker.context img;
     is_base64 := Ranker.is_base64 img |}.

(** The [for img in all_images] loop. *)
Fixpoint filter_images (request : ImageExtractRequest) (all_images : list Ranker.Image)
  : exn + list ExtractedImage :=
  match all_images with
  | [] => mret []
  | img :: rest =>
      keep ← keeps request img;
      filtered ← filter_images request rest;
      mret (if keep : bool then to_extracted img :: filtered else filtered)
  end.

(** The condition of the filter for integer bounds [mw], [mh] and the flag
    [small], as the specification states it. *)
Definition passes (mw mh : Z) (small : bool) (img : Ranker.Image) : bool :=
  (mw <=? Ranker.width img)%Z && (mh <=? Ranker.height img)%Z &&
  (small || ((100 <=? Ranker.width img)%Z && (100 <=? Ranker.height img)%Z)).

(** The [try] block of the endpoint, from the scrape result on. *)
Definition extract_images_body (request : ImageExtractRequest) (scraped : ScrapeResult)
  : exn + ImageExtractResponse :=
  let url := url request in
  let url := if negb (starts_with "http://" url || starts_with "https://" url)
             then "https://" +:+ url else url in
  match scraped with
  | ScrapeError msg => inl (Exception msg)
  | ScrapeData data =>
      filtered_images ← filter_images request (allImages data);
      let filtered_images := list_slice_to filtered_images (image_limit request) in
      mret {| success := true;
              response_url := url;
              total_images := Z.of_nat (length filtered_images);
              images := filtered_images;
              screenshot_base64 := Some (screenshot data);
              error_message := None |}
  end.

Definition extract_images (request : ImageExtractRequest) (scraped : ScrapeResult)
  : exn + ImageExtractResponse :=
  try_except (extract_images_body request scraped)
    (fun e =>
       mret {| success := false;
               response_url := url request;
               total_images := 0;
               images := [];
               screenshot_base64 := None;
               error_message := Some (exn_str e) |}).

End Filter.

(** ** The LLM boundary: [LLMWebsiteCloner._extract_html_from_response] and
    [LLMWebsiteCloner._post_process_html] (backend/app/llm_cloner.py) *)
Module LLMBoundary.
Import Str.

Definition nl : string := String (ascii_of_nat 10) EmptyString.

Definition fence_open : string := "```html".
Definition fence : string := "```".
Definition doctype_marker : string := "<!DOCTYPE html".

(** The text the first [if]/[elif]/[else] selects. *)
Definition select_html (response : string) : string :=
  if contains fence_open response then
    let start := (find fence_open response 0 + 7)%Z in
    let end_ := find fence response start in
    strip (slice response (Some start) (Some end_))
  else if contains doctype_marker response then
    let start := find doctype_marker response 0 in
    strip (slice response (Some start) None)
  else strip response.

(** The clean-up of the text after the last ["</html>"]. *)
Definition cut_after_close (html : string) : string :=
  if contains "</html>" html then
    let end_ := (rfind "</html>" html + 7)%Z in
    slice html None (Some end_)
  else html.

Definition _extract_html_from_response (response : string) : string :=
  cut_after_close (select_html response).

Definition ensure_doctype (html : string) : string :=
  if negb (starts_with doctype_marker html)
  then "<!DOCTYPE html>" +:+ nl +:+ html
  else html.

Definition wrap_document (html : string) : string :=
  "<!DOCTYPE html>" +:+ nl +:+ "<html>" +:+ nl +:+ "<head>" +:+ nl +:+
  "<title>Cloned Website</title>" +:+ nl +:+ "</head>" +:+ nl +:+ "<body>" +:+ nl +:+
  html +:+ nl +:+ "</body>" +:+ nl +:+ "</html>".

Definition html_open_expanded : string :=
  "<html>" +:+ nl +:+ "<head>" +:+ nl +:+ "<title>Cloned Website</title>" +:+ nl +:+
  "</head>" +:+ nl +:+ "<body>".

Definition html_close_expanded : string := "</body>" +:+ nl +:+ "</html>".

Definition _post_process_html (html : string) : string :=
  let html := ensure_doctype html in
  if negb (contains "<html" html) then wrap_document html
  else if negb (contains "<head>" html) && negb (contains "<body>" html) then
    replace "</html>" html_close_expanded (replace "<html>" html_open_expanded html)
  else html.

(** What [clone_website] does to the text of the model's answer. *)
Definition boundary (response : string) : string :=
  _post_process_html (_extract_html_from_response response).

End LLMBoundary.


(** ** The [/clone] endpoint: [clone_website], [HTMLGenerator] (backend/main.py) *)
Module Clone.
Import Str Py.

Record CloneResponse := {
  success : bool;
  generated_html : string;
  original_url : string;
  error_message : option string
}.

Definition nl : string := String (ascii_of_nat 10) EmptyString.
Definition dq : string := String (ascii_of_nat 34) EmptyString.

(** The literal parts of the error page, between its four placeholders. *)
Definition error_page_head : string :=
  "<!DOCTYPE html>" +:+ nl +:+
  "<html>" +:+ nl +:+
  "<head>" +:+ nl +:+
  "    <title>Super Clone Failed</title>" +:+ nl +:+
  "    <style>" +:+ nl +:+
  "        body { " +:+ nl +:+
  "            font-family: -apple-system, BlinkMacSystemFont, 'Segoe UI', Roboto, sans-serif;" +:+ nl +:+
  "            padding: 40px; background: #f8f9fa; color: #333; margin: 0;" +:+ nl +:+
  "        }" +:+ nl +:+
  "        .error { " +:+ nl +:+
  "            background: white; padding: 30px; border-radius: 8px; " +:+ nl +:+
  "            box-shadow: 0 2px 10px rgba(0,0,0,0.1); max-width: 600px; margin: 0 auto;" +:+ nl +:+
  "        }" +:+ nl +:+
  "        .url { background: #f8f9fa; padding: 10px; border-radius: 4px; margin: 10px 0; word-break: break-all; }" +:+ nl +:+
  "        h1 { color: #dc3545; margin-top: 0; }" +:+ nl +:+
  "        .status { margin: 20px 0; }" +:+ nl +:+
  "        .status span { display: inline-block; margin-right: 15px; }" +:+ nl +:+
  "    </style>" +:+ nl +:+
  "</head>" +:+ nl +:+
  "<body>" +:+ nl +:+
  "    <div class=" +:+ dq +:+ "error" +:+ dq +:+ ">" +:+ nl +:+
  "        <h1>🚫 Super Clone Failed</h1>" +:+ nl +:+
  "        <p><strong>Error:</strong> ".

Definition error_page_url : string :=
  "</p>" +:+ nl +:+
  "        <div class=" +:+ dq +:+ "url" +:+ dq +:+ "><strong>URL:</strong> ".

Definition error_page_status : string :=
  "</div>" +:+ nl +:+
  "        " +:+ nl +:+
  "        <div class=" +:+ dq +:+ "status" +:+ dq +:+ ">" +:+ nl +:+
  "            <h3>System Status:</h3>" +:+ nl +:+
  "            <span><strong>Playwright:</strong> ".

Definition error_page_mcp : string :=
  "</span>" +:+ nl +:+
  "            <span><strong>MCP:</strong> ".

Definition error_page_tail : string :=
  "</span>" +:+ nl +:+
  "        </div>" +:+ nl +:+
  "        " +:+ nl +:+
  "        <h3>💡 Super Image Cloner Features:</h3>" +:+ nl +:+
  "        <ul>" +:+ nl +:+
  "            <li>🎯 60+ CSS selectors for comprehensive image detection</li>" +:+ nl +:+
  "            <li>📸 Full page screenshot capture</li>" +:+ nl +:+
  "            <li>🔍 Background image extraction from CSS</li>" +:+ nl +:+
  "            <li>⚡ Lazy loading trigger via aggressive scrolling</li>" +:+ nl +:+
  "            <li>🎨 SVG and Canvas element capture</li>" +:+ nl +:+
  "            <li>🔄 Smart duplicate removal</li>" +:+ nl +:+
  "            <li>📊 Size and format detection</li>" +:+ nl +:+
  "        </ul>" +:+ nl +:+
  "        " +:+ nl +:+
  "        <p><strong>Try these URLs:</strong></p>" +:+ nl +:+
  "        <ul>" +:+ nl +:+
  "            <li>https://nike.com</li>" +:+ nl +:+
  "            <li>https://apple.com</li>" +:+ nl +:+
  "            <li>https://github.com</li>" +:+ nl +:+
  "            <li>https://unsplash.com</li>" +:+ nl +:+
  "        </ul>" +:+ nl +:+
  "        " +:+ nl +:+
  "        <p><small>If this persists, the website might have strong bot protection.</small></p>" +:+ nl +:+
  "    </div>" +:+ nl +:+
  "</body>" +:+ nl +:+
  "</html>".

Definition playwright_flag (available : bool) : string :=
  if available then "✅ Available" else "❌ Not Available".

Definition mcp_flag (ready : bool) : string :=
  if ready then "✅ Ready" else "❌ Not Ready".

(** The f-string [error_html]. *)
Definition error_html (error_msg request_url : string)
    (PLAYWRIGHT_AVAILABLE agent_primary : bool) : string :=
  error_page_head +:+ error_msg +:+
  error_page_url +:+ request_url +:+
  error_page_status +:+ playwright_flag PLAYWRIGHT_AVAILABLE +:+
  error_page_mcp +:+ mcp_flag agent_primary +:+
  error_page_tail.

(** The data substituted when the MCP backup answers. *)
Definition mcp_backup_data (url : string) (mcp_data : pyval) : dict :=
  [("url", PStr url);
   ("siteType", PStr "standard");
   ("backgroundColor", PStr "#ffffff");
   ("textColor", PStr "#333333");
   ("fontFamily", PStr "arial, sans-serif");
   ("title", PStr "Website");
   ("navigation", PList [PStr "Home"; PStr "About"; PStr "Contact"]);
   ("headings", PList [PStr "Welcome"; PStr "About Us"]);
   ("logo", PDict [("type", PStr "text"); ("text", PStr "Brand")]);
   ("isDark", PBool false);
   ("hasSearch", PBool false);
   ("hasVideo", PBool false);
   ("allImages", PList []);
   ("totalImagesFound", PInt 0);
   ("mcp_data", mcp_data)].

(** The minimal fallback data. *)
Definition fallback_data (url : string) : dict :=
  [("url", PStr url);
   ("siteType", PStr "standard");
   ("backgroundColor", PStr "#ffffff");
   ("textColor", PStr "#333333");
   ("fontFamily", PStr "system-ui, sans-serif");
   ("title", PStr "Website");
   ("navigation", PList [PStr "Home"; PStr "About"; PStr "Contact"]);
   ("headings", PList [PStr "Welcome to Our Website"]);
   ("logo", PDict [("type", PStr "text"); ("text", PStr "Website")]);
   ("isDark", PBool false);
   ("hasSearch", PBool false);
   ("hasVideo", PBool false);
   ("allImages", PList []);
   ("totalImagesFound", PInt 0)].

(** The "Clean HTML" steps of [create_html]. *)
Definition clean_html (html_content : string) : string :=
  let html_content :=
    if contains "```html" html_content then
      let start := (find "```html" html_content 0 + 7)%Z in
      let end_ := find "```" html_content start in
      if negb (end_ =? -1)%Z
      then strip (slice html_content (Some start) (Some end_))
      else html_content
    else html_content in
  if negb (starts_with "<!DOCTYPE" html_content)
  then "<!DOCTYPE html>" +:+ nl +:+ html_content
  else html_content.

Section Endpoint.
(** [repr] of containers, as in [Py.py_str]. *)
Variable py_repr : pyval -> string.
(** The module-level flag and the truth value of the global agent. *)
Variable PLAYWRIGHT_AVAILABLE : bool.
Variable agent_primary : bool.
(** The two scrapers; both catch every exception themselves and return a
    dict. *)
Variable scrape_with_super_playwright : string -> dict.
Variable scrape_with_mcp : string -> dict.
(** [os.getenv("ANTHROPIC_API_KEY")] *)
Variable api_key : option string.
(** The prompt assembly of [create_html], which precedes its [try]; it
    raises when an entry of [allImages] is not the dict it should be. *)
Variable build_prompt : dict -> exn + string.
(** [client.messages.create(...)] followed by [response.content[0].text]. *)
Variable messages_create : string -> exn + string.

Abbreviation str := (py_str py_repr).

(** [HTMLGenerator.__init__] *)
Definition HTMLGenerator : exn + unit :=
  match api_key with
  | Some (String _ _) => mret ()
  | _ => inl (ValueError "ANTHROPIC_API_KEY required")
  end.

(** [HTMLGenerator.create_html] *)
Definition create_html (data : dict) : exn + string :=
  if has_key "error" data then
    err ← getitem data "error";
    match err with
    | PStr msg => inl (Exception ("No visual data available: " +:+ msg))
    | _ => inl (TypeError ("can only concatenate str (not " +:+ dq +:+
                           type_name err +:+ dq +:+ ") to str"))
    end
  else
    prompt ← build_prompt data;
    try_except
      (html_content ← messages_create prompt; mret (clean_html html_content))
      (fun e => inl (Exception ("HTML generation failed: " +:+ exn_str e))).

(** The [try] block of [clone_website]. *)
Definition clone_body (request_url : string) : exn + CloneResponse :=
  let url := request_url in
  let url := if negb (starts_with "http://" url || starts_with "https://" url)
             then "https://" +:+ url else url in
  data ← try_except
           (let data := scrape_with_super_playwright url in
            if has_key "error" data then
              err ← getitem data "error";
              inl (Exception ("Super Playwright failed: " +:+ str err))
            else mret data)
           (fun playwright_error => mret [("error", PStr (exn_str playwright_error))]);
  data ← (if has_key "error" data && agent_primary then
            try_except
              (let mcp_data := scrape_with_mcp url in
               if truthy (PDict mcp_data) && truthy (get mcp_data "mcp_data")
               then mret (mcp_backup_data url (get_default mcp_data "mcp_data" (PStr "")))
               else inl (Exception "MCP also failed"))
              (fun mcp_error => mret (fallback_data url))
          else mret data);
  data ← Normalizer.safe_data_cleanup py_repr data;
  generator ← HTMLGenerator;
  html_content ← create_html data;
  mret {| success := true;
          generated_html := html_content;
          original_url := url;
          error_message := None |}.

(** [clone_website]: the [try] block and its [except Exception] handler. *)
Definition clone_website (request_url : string) : exn + CloneResponse :=
  try_except (clone_body request_url)
    (fun e =>
       let error_msg := exn_str e in
       mret {| success := false;
               generated_html :=
                 error_html error_msg request_url PLAYWRIGHT_AVAILABLE agent_primary;
               original_url := request_url;
               error_message := Some error_msg |}).
End Endpoint.

End Clone.


(** ** Navigation: [WebsiteScraper._smart_navigation] (backend/app/scraper.py) *)
Module Navigation.
Import Py.

Record Strategy := {
  wait_until : string;
  timeout : Z
}.

Definition strategies : list Strategy :=
  [ {| wait_until := "networkidle"; timeout := 30000 |};
    {| wait_until := "domcontentloaded"; timeout := 20000 |};
    {| wait_until := "load"; timeout := 15000 |} ].

Section SmartNavigation.
(** The browser page is an opaque state; [goto page url strategy] is
    [await page.goto(url, **strategy)]: the page afterwards, and the
    exception raised, if any. *)
Variable Page : Type.
Variable goto : Page -> string -> Strategy -> Page * option exn.

(** The [for i, strategy in enumerate(strategies)] loop from index [i] on;
    [attempts] records the strategies handed to [goto] so far. *)
Fixpoint navigation_loop (url : string) (i : nat) (rest : list Strategy)
    (page : Page) (attempts : list Strategy)
  : Page * list Strategy * (exn + unit) :=
  match rest with
  | [] => (page, attempts, inr ())
  | strategy :: rest' =>
      let '(page', outcome) := goto page url strategy in
      let attempts' := attempts ++ [strategy] in
      match outcome with
      | None => (page', attempts', inr ())
      | Some e =>
          if i =? length strategies - 1
          then (page', attempts', inl e)
          else navigation_loop url (S i) rest' page' attempts'
      end
  end.

Definition _smart_navigation (page : Page) (url : string)
  : Page * list Strategy * (exn + unit) :=
  navigation_loop url 0 strategies page [].
End SmartNavigation.

End Navigation.

(** ** The scrape functions as sequences of browser operations:
    [WebsiteScraper.scrape_website] (backend/app/scraper.py) and
    [scrape_with_super_playwright] (backend/main.py) *)
Module Scrape.
Import Py.

(** The awaited operations.  [Step] is any call on the page, or one of the
    scraper's helper coroutines, named after the method. *)
Inductive op :=
  | PlaywrightStart
  | Launch
  | NewContext
  | NewPage
  | Step (name : string)
  | BrowserClose.

(** What happened, in order: an operation with its success, or the exit of
    the [async with async_playwright()] block, which stops the Playwright
    driver and with it every browser the driver launched. *)
Inductive event :=
  | Did (o : op) (ok : bool)
  | PlaywrightStop.

Inductive outcome :=
  | ReturnedData
  | ReturnedError (msg : string).

Section Run.
(** The world outside is an opaque state; [perform o w] runs the
    operation: the world afterwards, and the exception raised, if any. *)
Variable World : Type.
Variable perform : op -> World -> World * option exn.

(** A computation threads the world, logs its events and may raise. *)
Definition M (A : Type) : Type := World -> World * list event * (exn + A).

Definition ret {A} (x : A) : M A := fun w => (w, [], inr x).

Definition bind {A B} (m : M A) (f : A -> M B) : M B := fun w =>
  let '(w1, t1, r) := m w in
  match r with
  | inl e => (w1, t1, inl e)
  | inr x => let '(w2, t2, r2) := f x w1 in (w2, t1 ++ t2, r2)
  end.

Definition call (o : op) : M unit := fun w =>
  let '(w', r) := perform o w in
  match r with
  | Some e => (w', [Did o false], inl e)
  | None => (w', [Did o true], inr ())
  end.

(** [try: body  finally: final] *)
Definition try_finally {A} (body : M A) (final : M unit) : M A := fun w =>
  let '(w1, t1, r) := body w in
  let '(w2, t2, rf) := final w1 in
  (w2, t1 ++ t2, match rf with inl e => inl e | inr _ => r end).

(** [try: body  except Exception as e: handler(e)] *)
Definition try_except {A} (body : M A) (handler : exn -> M A) : M A := fun w =>
  let '(w1, t1, r) := body w in
  match r with
  | inl e => let '(w2, t2, r2) := handler e w1 in (w2, t1 ++ t2, r2)
  | inr x => (w1, t1, inr x)
  end.

(** [async with async_playwright() as p: body] *)
Definition async_with_playwright {A} (body : M A) : M A := fun w =>
  let '(w0, r0) := perform PlaywrightStart w in
  match r0 with
  | Some e => (w0, [Did PlaywrightStart false], inl e)
  | None =>
      let '(w1, t1, r) := body w0 in
      (w1, Did PlaywrightStart true :: t1 ++ [PlaywrightStop], r)
  end.

(** Awaited calls one after the other. *)
Fixpoint steps (names : list string) : M unit :=
  match names with
  | [] => ret ()
  | n :: rest => bind (call (Step n)) (fun _ => steps rest)
  end.

(** The awaited calls of the [try] block of [scrape_website]. *)
Definition website_steps : list string :=
  ["_smart_navigation"; "_wait_for_content"; "_handle_overlays";
   "_comprehensive_scroll"; "content"; "title";
   "_extract_meta_data"; "_capture_advanced_screenshots";
   "_extract_advanced_html"; "_extract_visual_elements";
   "_extract_interactive_elements"; "_extract_media_content";
   "_extract_design_system"; "_analyze_advanced_layout";
   "_analyze_typography"; "_detect_animations";
   "_analyze_responsive_advanced"; "_measure_performance";
   "_analyze_accessibility"].

Definition scrape_website : M unit :=
  async_with_playwright
    (bind (call Launch) (fun _ =>
     bind (call NewContext) (fun _ =>
     bind (call NewPage) (fun _ =>
     try_finally (steps website_steps) (call BrowserClose))))).

(** The awaited calls of [scrape_with_super_playwright] between the page
    creation and [browser.close()]. *)
Definition super_steps : list string :=
  ["goto"; "wait_for_timeout"] ++
  concat (replicate 6 ["evaluate"; "wait_for_timeout"; "evaluate"; "wait_for_timeout"]) ++
  ["screenshot"; "evaluate"].

Definition scrape_with_super_playwright (PLAYWRIGHT_AVAILABLE : bool) : M outcome :=
  if negb PLAYWRIGHT_AVAILABLE then ret (ReturnedError "Playwright not available")
  else
    try_except
      (async_with_playwright
         (bind (call Launch) (fun _ =>
          bind (call NewContext) (fun _ =>
          bind (call NewPage) (fun _ =>
          bind (steps super_steps) (fun _ =>
          bind (call BrowserClose) (fun _ =>
          ret ReturnedData)))))))
      (fun e => ret (ReturnedError (exn_str e))).

End Run.


End Scrape.

(** ** JavaScript string primitives used by the site analysis *)
Module Js.
Import Str.

(** [a || b] on strings: the empty string is the falsy one. *)
Definition or_else (a b : string) : string :=
  match a with
  | EmptyString => b
  | String _ _ => a
  end.

(** The ASCII part of WhiteSpace and LineTerminator: TAB, LF, VT, FF, CR,
    SPACE. *)
Definition is_ascii_space (c : ascii) : bool :=
  let n := code c in
  ((9 <=? n) && (n <=? 13)) || (n =? 32).

(** [s.trimStart()]: besides the ASCII ones, the UTF-8 encodings of U+00A0,
    U+1680, U+2000..U+200A, U+2028, U+2029, U+202F, U+205F, U+3000 and U+FEFF
    are removed. *)
Fixpoint trimStart (s : string) : string :=
  match s with
  | EmptyString => s
  | String c r =>
      if is_ascii_space c then trimStart r
      else
        match code c, r with
        | 194, String d r' =>
            if code d =? 160 then trimStart r' else s
        | 225, String d (String e r') =>
            if (code d =? 154) && (code e =? 128) then trimStart r' else s
        | 226, String d (String e r') =>
            if ((code d =? 128) &&
                (((128 <=? code e) && (code e <=? 138)) ||
                 (code e =? 168) || (code e =? 169) || (code e =? 175)))
               || ((code d =? 129) && (code e =? 159))
            then trimStart r' else s
        | 227, String d (String e r') =>
            if (code d =? 128) && (code e =? 128) then trimStart r' else s
        | 239, String d (String e r') =>
            if (code d =? 187) && (code e =? 191) then trimStart r' else s
        | _, _ => s
        end
  end.

(** [s.trimEnd()]: a suffix made of white space only is removed. *)
Fixpoint trimEnd (s : string) : string :=
  match trimStart s with
  | EmptyString => EmptyString
  | _ =>
      match s with
      | EmptyString => EmptyString
      | String c r => String c (trimEnd r)
      end
  end.

(** [s.trim()] *)
Definition trim (s : string) : string := trimEnd (trimStart s).

(** [s.length], the number of UTF-16 code units: a code point encoded in
    four bytes takes two units, every other one takes one. *)
Fixpoint utf16_length (s : string) : nat :=
  match s with
  | EmptyString => 0
  | String c r =>
      (if Py.is_continuation c then 0 else if 240 <=? code c then 2 else 1)
      + utf16_length r
  end.

End Js.

(** ** The site analysis of the extraction script and the object it
    returns (backend/main.py) *)
Module SiteAnalysis.
Import Str Py Js.

Definition dq : string := String (ascii_of_nat 34) EmptyString.

(** An [a] element matched by a navigation selector. *)
Record Link := {
  link_textContent : string;
  link_href : string
}.

(** An element matched by ['h1, h2, h3']. *)
Record HeadingElement := {
  heading_textContent : string;
  heading_tagName : string
}.

(** An [img] element matched by a logo selector. *)
Record LogoImg := {
  logo_src : string;
  logo_alt : string
}.

(** What the script reads from the page.  [querySelector] answers with the
    first match or [null]; [elements] are the candidates read, in order, off
    the elements the image loops visit. *)
Record Document := {
  location_href : string;
  location_origin : string;
  title : string;
  body_backgroundColor : string;
  body_color : string;
  body_fontFamily : string;
  querySelector_img : string -> option LogoImg;
  querySelector_textContent : string -> option string;
  querySelectorAll_links : string -> list Link;
  headings_h1_h2_h3 : list HeadingElement;
  has_search : bool;
  has_video : bool;
  elements : list Ranker.RawCandidate
}.

(** [bgColor] after the test for a missing or transparent background. *)
Definition backgroundColor (doc : Document) : string :=
  let bgColor := body_backgroundColor doc in
  if String.eqb bgColor "" || String.eqb bgColor "rgba(0, 0, 0, 0)"
  then "#ffffff" else bgColor.

Definition textColor (doc : Document) : string :=
  or_else (body_color doc) "#333333".

Definition isDark (bgColor : string) : bool :=
  contains "rgb(0" bgColor || contains "#000" bgColor ||
  contains "#202124" bgColor || contains "rgb(18" bgColor.

Inductive Logo :=
  | ImageLogo (src alt : string)
  | TextLogo (text : string).

Definition logoSelectors : list string :=
  ["img[alt*=" +:+ dq +:+ "logo" +:+ dq +:+ " i]";
   "img[src*=" +:+ dq +:+ "logo" +:+ dq +:+ " i]";
   ".logo img"; ".brand img"; "nav img"; ".navbar-brand img";
   ".site-logo img"; ".header-logo img"].

Definition textLogoSelectors : list string :=
  [".logo"; ".brand"; "h1"; ".site-title"].

(** The loop over [logoSelectors], left at the first image with a source. *)
Fixpoint image_logo (doc : Document) (selectors : list string) : option Logo :=
  match selectors with
  | [] => None
  | selector :: rest =>
      match querySelector_img doc selector with
      | Some logoImg =>
          match logo_src logoImg with
          | EmptyString => image_logo doc rest
          | String _ _ =>
              Some (ImageLogo (logo_src logoImg) (or_else (logo_alt logoImg) ""))
          end
      | None => image_logo doc rest
      end
  end.

(** The loop over [textLogoSelectors], left at the first element with text. *)
Fixpoint text_logo (doc : Document) (selectors : list string) : option Logo :=
  match selectors with
  | [] => None
  | selector :: rest =>
      match querySelector_textContent doc selector with
      | Some textContent =>
          match trim textContent with
          | EmptyString => text_logo doc rest
          | String _ _ => Some (TextLogo (trim textContent))
          end
      | None => text_logo doc rest
      end
  end.

Definition logo (doc : Document) : option Logo :=
  match image_logo doc logoSelectors with
  | Some l => Some l
  | None => text_logo doc textLogoSelectors
  end.

(** An entry of [navLinks]. *)
Record NavLink := {
  nav_text : string;
  nav_href : string
}.

(** The entry a link yields when its text passes the first two tests. *)
Definition nav_item (link : Link) : option NavLink :=
  let text := trim (link_textContent link) in
  match text with
  | EmptyString => None
  | String _ _ =>
      if utf16_length text <? 50
      then Some {| nav_text := text; nav_href := or_else (link_href link) "#" |}
      else None
  end.

(** The callback of [forEach]:
    [if (text && text.length < 50 && navLinks.length < 10) navLinks.push(...)] *)
Definition push_link (navLinks : list NavLink) (link : Link) : list NavLink :=
  match nav_item link with
  | Some item => if length navLinks <? 10 then navLinks ++ [item] else navLinks
  | None => navLinks
  end.

Definition navSelectors : list string :=
  ["nav a"; ".nav a"; "header a"; ".navbar a"; ".menu a"].

(** [navLinks] after the loop over [navSelectors]. *)
Definition navigation (doc : Document) : list NavLink :=
  foldl (fun navLinks selector =>
           foldl push_link navLinks (querySelectorAll_links doc selector))
        [] navSelectors.

(** An entry of [headings]. *)
Record Heading := {
  heading_text : string;
  heading_level : string
}.

Definition heading_item (h : HeadingElement) : option Heading :=
  let text := trim (heading_textContent h) in
  match text with
  | EmptyString => None
  | String _ _ =>
      Some {| heading_text := text; heading_level := lower (heading_tagName h) |}
  end.

(** [if (text && headings.length < 8) headings.push(...)] *)
Definition push_heading (headings : list Heading) (h : HeadingElement) : list Heading :=
  match heading_item h with
  | Some item => if length headings <? 8 then headings ++ [item] else headings
  | None => headings
  end.

Definition headings (doc : Document) : list Heading :=
  foldl push_heading [] (headings_h1_h2_h3 doc).

(** The Python values [page.evaluate] hands back for the objects of the
    script. *)
Definition logo_value (l : option Logo) : pyval :=
  match l with
  | None => PNone
  | Some (ImageLogo src alt) =>
      PDict [("type", PStr "image"); ("src", PStr src); ("alt", PStr alt)]
  | Some (TextLogo text) => PDict [("type", PStr "text"); ("text", PStr text)]
  end.

Definition nav_value (n : NavLink) : pyval :=
  PDict [("text", PStr (nav_text n)); ("href", PStr (nav_href n))].

Definition heading_value (h : Heading) : pyval :=
  PDict [("text", PStr (heading_text h)); ("level", PStr (heading_level h))].

Definition image_value (i : Ranker.Image) : pyval :=
  PDict [("src", PStr (Ranker.src i)); ("alt", PStr (Ranker.alt i));
         ("width", PInt (Ranker.width i)); ("height", PInt (Ranker.height i));
         ("format", PStr (Ranker.format i)); ("context", PStr (Ranker.context i));
         ("is_base64", PBool (Ranker.is_base64 i))].

(** The object the script returns, and
    [visual_data['screenshot'] = screenshot_base64]. *)
Definition visual_data (doc : Document) (screenshot_base64 : string) : dict :=
  let ranked := Ranker.rank (location_origin doc) (elements doc) in
  let bgColor := backgroundColor doc in
  setitem
    [("url", PStr (location_href doc));
     ("siteType", PStr "standard");
     ("backgroundColor", PStr bgColor);
     ("textColor", PStr (textColor doc));
     ("isDark", PBool (isDark bgColor));
     ("fontFamily", PStr (body_fontFamily doc));
     ("title", PStr (title doc));
     ("logo", logo_value (logo doc));
     ("navigation", PList (nav_value <$> navigation doc));
     ("headings", PList (heading_value <$> headings doc));
     ("allImages", PList (image_value <$> Ranker.allImages ranked));
     ("totalImagesFound", PInt (Z.of_nat (Ranker.totalImagesFound ranked)));
     ("hasSearch", PBool (has_search doc));
     ("hasVideo", PBool (has_video doc))]
    "screenshot" (PStr screenshot_base64).

End SiteAnalysis.

(** ** The context handed to the model:
    [LLMWebsiteCloner._prepare_context] (backend/app/llm_cloner.py) and the
    dictionary [WebsiteScraper.scrape_website] returns
    (backend/app/scraper.py) *)
Module Context.
Import Str Py.
#[local] Set Warnings "-abstract-large-number".

Fixpoint join (l : list string) : string :=
  match l with
  | [] => EmptyString
  | x :: r => x +:+ join r
  end.

(** [s[:n]] on a [str], for a literal [n >= 0]: the first [n] characters. *)
Definition str_slice_to (s : string) (n : nat) : string := join (take n (chars s)).

(** [v[:n]]: a [str] and a [list] can be sliced; [None] stands for the
    exception any other object raises. *)
Definition slice_to (v : pyval) (n : nat) : option pyval :=
  match v with
  | PStr s => Some (PStr (str_slice_to s n))
  | PList l => Some (PList (take n l))
  | _ => None
  end.

(** [len(v)] *)
Definition len (v : pyval) : option Z :=
  match v with
  | PStr s => Some (Z.of_nat (length (chars s)))
  | PList l => Some (Z.of_nat (length l))
  | PDict d => Some (Z.of_nat (length d))
  | _ => None
  end.


Definition items (v : pyval) : option (list (string * pyval)) :=
  match v with
  | PDict d => Some d
  | _ => None
  end.









End Context.

(** ** The heading hierarchy: [WebsiteScraper._extract_headings_hierarchy]
    (backend/app/scraper.py) *)
Module Soup.
Import Str Py.

(** A tag of the parsed document: its name, [get_text(strip=True)], and the
    attributes [id] and [class] when it has them. *)
Record Tag := {
  tag_name : string;
  tag_text : string;
  tag_id : option string;
  tag_class : option (list string)
}.

Definition heading_names : list string := ["h1"; "h2"; "h3"; "h4"; "h5"; "h6"].

(** [soup.find_all(names)]: the tags with one of the names, in document
    order. *)
Definition find_all (names : list string) (soup : list Tag) : list Tag :=
  filter (fun tag => tag_name tag ∈ names) soup.

(** [int(name[1])]; [None] stands for the exception raised when [name] has
    no second character or the character is not an ASCII digit. *)
Definition level_of (name : string) : option Z :=
  match name with
  | String _ (String d _) =>
      if is_digit d then Some (Z.of_nat (code d - 48)) else None
  | _ => None
  end.

(** The dict appended for one heading. *)
Definition heading_dict (heading : Tag) : option pyval :=
  level ← level_of (tag_name heading);
  Some (PDict [("level", PInt level);
               ("text", PStr (tag_text heading));
               ("id", PStr (default "" (tag_id heading)));
               ("class", PList (PStr <$> default [] (tag_class heading)))]).

Definition _extract_headings_hierarchy (soup : list Tag) : option (list pyval) :=
  mapM heading_dict (find_all heading_names soup).

End Soup.

(** ** Overlays and scrolling: [WebsiteScraper._handle_overlays] and
    [WebsiteScraper._comprehensive_scroll] (backend/app/scraper.py) *)
Module Overlays.

Definition dq : string := String (ascii_of_nat 34) EmptyString.

Definition has_text (label : string) : string :=
  "button:has-text(" +:+ dq +:+ label +:+ dq +:+ ")".

Definition attr (element name op value : string) : string :=
  element +:+ "[" +:+ name +:+ op +:+ dq +:+ value +:+ dq +:+ "]".

Definition overlay_selectors : list string :=
  [attr "button" "id" "*=" "accept"; attr "button" "class" "*=" "accept";
   attr "button" "aria-label" "*=" "Accept";
   has_text "Accept"; has_text "Allow"; has_text "OK";
   has_text "Got it"; has_text "Continue"; has_text "Agree";
   attr "button" "aria-label" "*=" "Close"; attr "button" "class" "*=" "close";
   attr "" "data-dismiss" "=" "modal";
   has_text "No thanks"; has_text "Maybe later";
   has_text "Yes"; has_text "Enter"; has_text "I am over";
   has_text "Allow Location"; has_text "Enable"].

Section HandleOverlays.
(** The page is an opaque state.  [click page selector] is
    [await page.click(selector, timeout=2000)] and [wait_for_timeout page ms]
    is [await page.wait_for_timeout(ms)]: the page afterwards, and whether
    the call returned ([true]) or raised. *)
Variable Page : Type.
Variable click : Page -> string -> Page * bool.
Variable wait_for_timeout : Page -> Z -> Page * bool.

(** The [for selector in overlay_selectors] loop; [clicked] lists the
    selectors whose click returned. *)
Fixpoint overlay_loop (selectors : list string) (page : Page) (clicked : list string)
  : Page * list string :=
  match selectors with
  | [] => (page, clicked)
  | selector :: rest =>
      let '(page1, ok) := click page selector in
      if ok then
        let '(page2, ok2) := wait_for_timeout page1 1000 in
        if ok2 then (page2, clicked ++ [selector])
        else overlay_loop rest page2 (clicked ++ [selector])
      else overlay_loop rest page1 clicked
  end.

Definition _handle_overlays (page : Page) : Page * list string :=
  overlay_loop overlay_selectors page [].
End HandleOverlays.

(** The script of [_comprehensive_scroll]: the positions handed to
    [window.scrollTo(0, position)] by the [while] loop, [fuel] bounding the
    number of iterations. *)
Fixpoint scroll_loop (fuel : nat) (totalHeight position : Z) : option (list Z) :=
  match fuel with
  | O => None
  | S fuel' =>
      if (position <? totalHeight)%Z
      then (fun rest => position :: rest) <$> scroll_loop fuel' totalHeight (position + 300)
      else Some []
  end.

(** Every [scrollTo] of the script: the loop from [position = 0], then the
    return to the top. *)
Definition _comprehensive_scroll (fuel : nat) (scrollHeight_body scrollHeight_root : Z)
  : option (list Z) :=
  let totalHeight := Z.max scrollHeight_body scrollHeight_root in
  (fun positions => positions ++ [0%Z]) <$> scroll_loop fuel totalHeight 0.

End Overlays.

(* ================================================================== *)
(** * Part II: properties                                               *)
(* ================================================================== *)

(** ** Facts about the string primitives *)
Section StringFacts.
Import Str.

Lemma append_nil_r (s : string) : s +:+ "" = s.
Proof. induction s as [|c s IH]; simpl; [done | by rewrite IH]. Qed.

Lemma append_assoc (a b c : string) : (a +:+ b) +:+ c = a +:+ b +:+ c.
Proof. induction a as [|x a IH]; simpl; [done | by rewrite IH]. Qed.

Lemma length_append (a b : string) :
  String.length (a +:+ b) = String.length a + String.length b.
Proof. induction a as [|x a IH]; simpl; [done | by rewrite IH]. Qed.

Lemma starts_with_spec (p s : string) :
  starts_with p s = true <-> exists r, s = p +:+ r.
Proof.
  revert s. induction p as [|a p IH]; intros s; simpl.
  - split; [intros _; by exists s | done].
  - destruct s as [|b s].
    + split; [done | intros [r Hr]; discriminate].
    + destruct (Ascii.eqb_spec a b) as [->|Hne].
      * rewrite IH. split; intros [r Hr]; exists r; [by rewrite Hr | by injection Hr].
      * split; [done | intros [r Hr]; injection Hr as Hab _; congruence].
Qed.

Lemma starts_with_append (p r : string) : starts_with p (p +:+ r) = true.
Proof. apply starts_with_spec. by exists r. Qed.

Lemma strip_prefix_spec (p s r : string) :
  strip_prefix p s = Some r <-> s = p +:+ r.
Proof.
  revert s. induction p as [|a p IH]; intros s; simpl.
  - split; [by intros [= ->] | by intros ->].
  - destruct s as [|b s].
    + split; intros; discriminate.
    + destruct (Ascii.eqb_spec a b) as [->|Hne].
      * rewrite IH. split; [by intros -> | by intros [= ->]].
      * split; [done | intros [= Hab _]; congruence].
Qed.

Lemma strip_prefix_starts_with (p s : string) :
  strip_prefix p s = None <-> starts_with p s = false.
Proof.
  revert s. induction p as [|a p IH]; intros s; simpl; [done|].
  destruct s as [|b s]; [done|].
  destruct (Ascii.eqb a b); [apply IH | done].
Qed.




Lemma occurs_refl (s : string) : occurs s s.
Proof. exists "", "". simpl. by rewrite append_nil_r. Qed.

Lemma drop_0 (s : string) : drop 0 s = s.
Proof. by destruct s. Qed.

Lemma drop_empty (n : nat) : drop n "" = "".
Proof. by destruct n. Qed.

Lemma drop_S (n : nat) (c : ascii) (s : string) : drop (S n) (String c s) = drop n s.
Proof. done. Qed.

End StringFacts.

(** ** Resolver *)
Section ResolverFacts.
Import Str Resolver Ranker.

(** The five prefixes the resolver looks at exclude one another, except
    that a protocol-relative source is also root-relative. *)
Lemma http_not_data (url : string) :
  starts_with "http" url = true ->
  starts_with "data:" url = false /\ starts_with "/" url = false.
Proof. by intros [r ->]%starts_with_spec. Qed.

Lemma slashes_root (url : string) :
  starts_with "//" url = true -> starts_with "/" url = true.
Proof. by intros [r ->]%starts_with_spec. Qed.

Lemma data_not_root (url : string) :
  starts_with "data:" url = true -> starts_with "/" url = false.
Proof. by intros [r ->]%starts_with_spec. Qed.

(** An already absolute source is returned as it is. *)
Lemma resolveUrl_absolute (origin url : string) :
  starts_with "http" url = true -> resolveUrl origin url = Some url.
Proof.
  intros Hh. unfold resolveUrl. destruct (http_not_data url Hh) as [Hd Hr].
  destruct url as [|c u]; [done|].
  rewrite Hd. destruct (starts_with "//" (String c u)) eqn:Hs.
  - apply slashes_root in Hs. congruence.
  - by rewrite Hr, Hh.
Qed.

(** C1. The resolver returns: an already absolute source (one that starts
    with [http]) unchanged; a data-URI unchanged, and the candidate made from
    it is flagged inline; a protocol-relative source ([//...]) with [https:]
    put before it; a root-relative source ([/...], not [//...]) with the page
    origin put before it; every other non-empty source with the origin and a
    slash put before it. *)
Theorem resolveUrl_cases (origin url : string) (r : RawCandidate) :
  (starts_with "http" url = true -> resolveUrl origin url = Some url) /\
  (starts_with "data:" url = true ->
     resolveUrl origin url = Some url /\ is_base64 (make_image url r) = true) /\
  (starts_with "//" url = true -> resolveUrl origin url = Some ("https:" +:+ url)) /\
  (starts_with "/" url = true -> starts_with "//" url = false ->
     resolveUrl origin url = Some (origin +:+ url)) /\
  (url <> "" -> starts_with "http" url = false -> starts_with "data:" url = false ->
     starts_with "/" url = false ->
     resolveUrl origin url = Some (origin +:+ "/" +:+ url)).
Proof.
  split; [apply resolveUrl_absolute|].
  unfold resolveUrl. repeat split.
  - destruct url as [|c u]; [done|]. by rewrite H.
  - done.
  - intros Hs. pose proof (slashes_root url Hs) as Hr.
    destruct url as [|c u]; [done|].
    destruct (starts_with "data:" (String c u)) eqn:Hd.
    + apply data_not_root in Hd. congruence.
    + by rewrite Hs.
  - intros Hr Hs. destruct url as [|c u]; [done|].
    destruct (starts_with "data:" (String c u)) eqn:Hd.
    + apply data_not_root in Hd. congruence.
    + by rewrite Hs, Hr.
  - intros Hne Hh Hd Hr. destruct url as [|c u]; [done|].
    destruct (starts_with "//" (String c u)) eqn:Hs.
    + apply slashes_root in Hs. congruence.
    + by rewrite Hd, Hr, Hh.
Qed.

(** The two resolutions the specification lists, obtained from the theorem. *)
Lemma resolveUrl_cases_witness :
  resolveUrl "https://site.test" "//cdn.example.com/a.png"
    = Some "https://cdn.example.com/a.png" /\
  resolveUrl "https://site.test" "/logo.png" = Some "https://site.test/logo.png".
Proof.
  pose (r := {| raw_src := ""; raw_alt := ""; raw_width := 0; raw_height := 0;
                raw_context := "" |}).
  split.
  - destruct (resolveUrl_cases "https://site.test" "//cdn.example.com/a.png" r)
      as (_ & _ & H & _).
    apply H. reflexivity.
  - destruct (resolveUrl_cases "https://site.test" "/logo.png" r)
      as (_ & _ & _ & H & _).
    apply H; reflexivity.
Defined.

(** X1. Resolution is idempotent when the page origin starts with [http], as
    the origin of every page reached over HTTP does: whatever the source, the
    resolved URL resolves to itself. *)
Theorem resolveUrl_idempotent (origin url resolved : string) :
  starts_with "http" origin = true ->
  resolveUrl origin url = Some resolved ->
  resolveUrl origin resolved = Some resolved.
Proof.
  intros [o ->]%starts_with_spec. unfold resolveUrl at 1.
  destruct url as [|c u]; [done|].
  destruct (starts_with "data:" (String c u)) eqn:Hd.
  { intros [= <-]. unfold resolveUrl. by rewrite Hd. }
  destruct (starts_with "//" (String c u)) eqn:Hs.
  { intros [= <-]. by apply resolveUrl_absolute. }
  destruct (starts_with "/" (String c u)) eqn:Hr.
  { intros [= <-]. by apply resolveUrl_absolute. }
  destruct (starts_with "http" (String c u)) eqn:Hh; cbn [negb].
  - intros [= <-]. by apply resolveUrl_absolute.
  - intros [= <-]. by apply resolveUrl_absolute.
Qed.

Lemma resolveUrl_idempotent_witness :
  resolveUrl "https://site.test" "img/logo.png" = Some "https://site.test/img/logo.png" /\
  resolveUrl "https://site.test" "https://site.test/img/logo.png"
    = Some "https://site.test/img/logo.png".
Proof.
  split; [reflexivity|].
  apply (resolveUrl_idempotent "https://site.test" "img/logo.png"); reflexivity.
Defined.

End ResolverFacts.

(** ** Format inference *)
Section FormatFacts.
Import Str Resolver.

(** What a greedy group captures: a non-empty run of the class, after which
    the rest of the pattern matches and the group could not have gone on. *)
Lemma greedy_plus_spec (cls : ascii -> bool) (k : string -> bool) (s m : string) :
  greedy_plus cls k s = Some m <->
  exists rest, s = m +:+ rest /\ m <> "" /\ all_chars cls m = true /\
    k rest = true /\ greedy_plus cls k rest = None.
Proof.
  split.
  - revert m. induction s as [|c r IH]; intros m; simpl; [done|].
    destruct (cls c) eqn:Hc; [|done].
    destruct (greedy_plus cls k r) as [m'|] eqn:Hg.
    + intros [= <-]. destruct (IH m' eq_refl) as (rest & -> & Hne & Hall & Hk & Hn).
      exists rest. simpl. by rewrite Hc, Hall.
    + destruct (k r) eqn:Hk; [|done]. intros [= <-].
      exists r. simpl. by rewrite Hc.
  - intros (rest & -> & Hne & Hall & Hk & Hn).
    induction m as [|c m IH]; [done|].
    simpl in Hall. apply andb_true_iff in Hall as [Hc Hall].
    simpl. rewrite Hc. destruct m as [|c' m].
    + simpl. by rewrite Hn, Hk.
    + by rewrite IH.
Qed.

Lemma greedy_plus_any_None (cls : ascii -> bool) (rest : string) :
  greedy_plus cls (fun _ => true) rest = None <-> run_ends cls rest = true.
Proof.
  destruct rest as [|c r]; simpl; [done|].
  destruct (cls c); simpl; [|done].
  by destruct (greedy_plus cls (fun _ => true) r).
Qed.

Lemma greedy_plus_query_None (rest : string) :
  query_or_end rest = true -> greedy_plus is_alnum query_or_end rest = None.
Proof.
  destruct rest as [|c r]; [done|].
  intros [t Ht]%starts_with_spec. by injection Ht as -> _.
Qed.

Lemma match_data_image_spec (t w : string) :
  match_data_image t = Some w <->
  exists rest, t = "data:image/" +:+ w +:+ rest /\ w <> "" /\
    all_chars is_word w = true /\ run_ends is_word rest = true.
Proof.
  unfold match_data_image.
  destruct (strip_prefix "data:image/" t) as [r|] eqn:Hp.
  - apply strip_prefix_spec in Hp as ->. rewrite greedy_plus_spec. split.
    + intros (rest & -> & Hne & Hall & _ & Hn). exists rest.
      by rewrite <- greedy_plus_any_None.
    + intros (rest & Heq & Hne & Hall & Hn). exists rest.
      apply (inj (String.append "data:image/")) in Heq.
      by rewrite greedy_plus_any_None.
  - split; [done|]. intros (rest & -> & _).
    by rewrite (proj2 (strip_prefix_spec _ _ _) eq_refl) in Hp.
Qed.

Lemma match_extension_spec (t e : string) :
  match_extension t = Some e <->
  exists rest, t = "." +:+ e +:+ rest /\ e <> "" /\
    all_chars is_alnum e = true /\ query_or_end rest = true.
Proof.
  unfold match_extension.
  destruct (strip_prefix "." t) as [r|] eqn:Hp.
  - apply strip_prefix_spec in Hp as ->. rewrite greedy_plus_spec. split.
    + intros (rest & -> & Hne & Hall & Hk & _). by exists rest.
    + intros (rest & Heq & Hne & Hall & Hk). exists rest.
      apply (inj (String.append ".")) in Heq.
      by rewrite greedy_plus_query_None.
  - split; [done|]. intros (rest & -> & _).
    by rewrite (proj2 (strip_prefix_spec _ _ _) eq_refl) in Hp.
Qed.

(** An unanchored search returns the match at the least offset that has one. *)
Lemma regex_search_Some (m : string -> option string) (s g : string) :
  regex_search m s = Some g <->
  exists i, m (drop i s) = Some g /\ forall j, j < i -> m (drop j s) = None.
Proof.
  induction s as [|c r IH]; simpl.
  - split.
    + intros H. exists 0. rewrite drop_0. split; [by destruct (m "") | lia].
    + intros (i & H & _). rewrite drop_empty in H. by rewrite H.
  - destruct (m (String c r)) as [g0|] eqn:Hm.
    + split.
      * intros [= <-]. exists 0. rewrite drop_0. split; [done | lia].
      * intros ([|i] & H & Hj).
        -- rewrite drop_0 in H. congruence.
        -- specialize (Hj 0 ltac:(lia)). rewrite drop_0 in Hj. congruence.
    + rewrite IH. split.
      * intros (i & H & Hj). exists (S i). split; [done|].
        intros [|j] ?; [by rewrite drop_0 | apply Hj; lia].
      * intros ([|i] & H & Hj).
        -- rewrite drop_0 in H. congruence.
        -- exists i. split; [done|]. intros j ?. apply (Hj (S j)). lia.
Qed.

Lemma regex_search_None (m : string -> option string) (s : string) :
  regex_search m s = None <-> forall i, m (drop i s) = None.
Proof.
  induction s as [|c r IH]; simpl.
  - split.
    + intros H i. rewrite drop_empty. by destruct (m "").
    + intros H. specialize (H 0). rewrite drop_0 in H. by rewrite H.
  - destruct (m (String c r)) as [g0|] eqn:Hm.
    + split; [done|]. intros H. specialize (H 0). rewrite drop_0 in H. congruence.
    + rewrite IH. split.
      * intros H [|i]; [by rewrite drop_0 | apply H].
      * intros H i. apply (H (S i)).
Qed.

(** C3 (as amended). For a source that starts with [data:], the format is
    the word (letters, digits, underscore; case kept) that follows the first
    [data:image/] followed by such a word, and ["unknown"] when there is none.
    For every other source it is the lower-cased run of letters and digits that
    follows the first dot whose run is non-empty and is followed by a question
    mark or the end of the source, and ["unknown"] when there is none. *)
Theorem getImageFormat_first_match (src : string) :
  (starts_with "data:" src = true ->
     (forall i w, data_image_at src i w ->
        (forall j w', j < i -> ~ data_image_at src j w') ->
        getImageFormat src = w) /\
     ((forall i w, ~ data_image_at src i w) -> getImageFormat src = "unknown")) /\
  (starts_with "data:" src = false ->
     (forall i e, extension_at src i e ->
        (forall j e', j < i -> ~ extension_at src j e') ->
        getImageFormat src = lower e) /\
     ((forall i e, ~ extension_at src i e) -> getImageFormat src = "unknown")).
Proof.
  unfold getImageFormat. split; intros ->; split.
  - intros i w Hat Hmin.
    assert (regex_search match_data_image src = Some w) as ->; [|done].
    apply regex_search_Some. exists i. split.
    + by apply match_data_image_spec.
    + intros j Hj. destruct (match_data_image (drop j src)) as [w'|] eqn:Hm; [|done].
      apply match_data_image_spec in Hm. by destruct (Hmin j w' Hj).
  - intros Hno.
    assert (regex_search match_data_image src = None) as ->; [|done].
    apply regex_search_None. intros i.
    destruct (match_data_image (drop i src)) as [w|] eqn:Hm; [|done].
    apply match_data_image_spec in Hm. by destruct (Hno i w).
  - intros i e Hat Hmin.
    assert (regex_search match_extension src = Some e) as ->; [|done].
    apply regex_search_Some. exists i. split.
    + by apply match_extension_spec.
    + intros j Hj. destruct (match_extension (drop j src)) as [e'|] eqn:Hm; [|done].
      apply match_extension_spec in Hm. by destruct (Hmin j e' Hj).
  - intros Hno.
    assert (regex_search match_extension src = None) as ->; [|done].
    apply regex_search_None. intros i.
    destruct (match_extension (drop i src)) as [e|] eqn:Hm; [|done].
    apply match_extension_spec in Hm. by destruct (Hno i e).
Qed.

(** The theorem at a data-URI: the word stands at offset 0. *)
Lemma getImageFormat_first_match_witness :
  getImageFormat "data:image/webp;base64,AAAA" = "webp".
Proof.
  destruct (getImageFormat_first_match "data:image/webp;base64,AAAA") as [H _].
  destruct (H eq_refl) as [Hfirst _].
  apply (Hfirst 0 "webp").
  - exists ";base64,AAAA". by repeat split.
  - intros j w' Hj. lia.
Defined.

(** The three formats the specification lists. *)
Example getImageFormat_examples :
  getImageFormat "data:image/webp;base64,AAAA" = "webp" /\
  getImageFormat "https://x.com/pic.JPG?v=2" = "jpg" /\
  getImageFormat "https://x.com/noext" = "unknown".
Proof. by repeat split. Qed.

(** On the listed sources the rule as the specification words it agrees. *)
Example spec_format_examples :
  spec_format "data:image/webp;base64,AAAA" = "webp" /\
  spec_format "https://x.com/pic.JPG?v=2" = "jpg" /\
  spec_format "https://x.com/noext" = "unknown".
Proof. by repeat split. Qed.

(** C3, counterexample. With a dot in the query string the code answers with
    the extension of the path ([png]), not with what follows the last dot
    ([2]); for [image/svg+xml] it answers [svg], not the subtype [svg+xml]. *)
Lemma getImageFormat_not_last_dot :
  getImageFormat "https://x.com/a.png?v=1.2" = "png" /\
  getImageFormat "https://x.com/a.png?v=1.2"
    <> spec_format "https://x.com/a.png?v=1.2" /\
  getImageFormat "data:image/svg+xml;base64,AAAA" = "svg" /\
  getImageFormat "data:image/svg+xml;base64,AAAA"
    <> spec_format "data:image/svg+xml;base64,AAAA".
Proof. by repeat split. Qed.

End FormatFacts.

(** ** Deduplication and ranking *)
Section HarvestFacts.
Import Str Resolver Ranker.

Lemma first_with_src_app_l (l k : list Image) (i : nat) (c : Image) :
  i < length l -> first_with_src (l ++ k) i c <-> first_with_src l i c.
Proof.
  intros Hi. unfold first_with_src. rewrite lookup_app_l by done.
  split; intros [Hc Hj]; (split; [done|]); intros j c' Hlt Hc'.
  - apply (Hj j c' Hlt). rewrite lookup_app_l by lia. done.
  - apply (Hj j c' Hlt). rewrite lookup_app_l in Hc' by lia. done.
Qed.

Lemma first_with_src_last (l : list Image) (c c0 : Image) :
  first_with_src (l ++ [c]) (length l) c0 <->
  c0 = c /\ forall c', c' ∈ l -> src c' <> src c.
Proof.
  unfold first_with_src. rewrite lookup_app_r by lia.
  rewrite Nat.sub_diag. simpl. split.
  - intros [[= <-] Hj]. split; [done|]. intros c' Hc'.
    apply list_elem_of_lookup in Hc' as [j Hj'].
    apply (Hj j c').
    + by apply lookup_lt_Some in Hj'.
    + rewrite lookup_app_l; [done | by apply lookup_lt_Some in Hj'].
  - intros [-> Hall]. split; [done|]. intros j c' Hlt Hc'.
    rewrite lookup_app_l in Hc' by done.
    apply Hall. apply list_elem_of_lookup. by exists j.
Qed.

Lemma first_with_src_bound (l : list Image) (c c0 : Image) (i : nat) :
  first_with_src (l ++ [c]) i c0 -> i < length l \/ i = length l.
Proof.
  intros [Hc _]. apply lookup_lt_Some in Hc.
  rewrite length_app in Hc. simpl in Hc. lia.
Qed.

(** What holds of [seenUrls] and [allImages] after any number of elements:
    the set holds the URLs of all candidates so far; the list is a
    subsequence of the candidates, without a repeated URL, made of the first
    candidate of each URL. *)
Lemma harvest_invariant (origin : string) (raws : list RawCandidate) :
  let st := foldl (push_candidate origin) (∅, []) raws in
  let cands := candidates origin raws in
  (forall u, u ∈ st.1 <-> exists c, c ∈ cands /\ src c = u) /\
  st.2 `sublist_of` cands /\
  NoDup (src <$> st.2) /\
  (forall c, c ∈ st.2 <-> exists i, first_with_src cands i c).
Proof.
  induction raws as [|r raws IH] using rev_ind; simpl.
  - split; [|split; [|split]].
    + intros u. split; [set_solver|]. intros (c & Hc & _). by apply elem_of_nil in Hc.
    + done.
    + constructor.
    + intros c. split; [by intros ?%elem_of_nil|]. by intros (i & Hi & _).
  - rewrite foldl_snoc. unfold candidates. rewrite omap_app.
    fold (candidates origin raws). simpl in IH.
    destruct IH as (Hseen & Hsub & Hnd & Hfirst).
    set (st := foldl (push_candidate origin) (∅, []) raws) in *.
    set (cands := candidates origin raws) in *.
    unfold push_candidate, candidate. simpl.
    destruct (resolveUrl origin (raw_src r)) as [u|] eqn:Hres; simpl.
    2: { rewrite app_nil_r. done. }
    set (c := make_image u r).
    assert (src c = u) as Hsrc by done.
    destruct (decide (u ∈ st.1)) as [Hin|Hnin]; cbn [fst snd].
    + split; [|split; [|split]].
      * intros u0. rewrite Hseen. split.
        -- intros (c0 & Hc0 & <-). exists c0. split; [|done].
           apply elem_of_app. by left.
        -- intros (c0 & [Hc0|Hc0%list_elem_of_singleton]%elem_of_app & <-).
           ++ by exists c0.
           ++ subst c0. rewrite Hsrc. by apply Hseen.
      * by apply sublist_inserts_r.
      * done.
      * intros c0. rewrite Hfirst. split.
        -- intros (i & Hi). exists i. apply first_with_src_app_l; [|done].
           destruct Hi as [Hi _]. by apply lookup_lt_Some in Hi.
        -- intros (i & Hi). destruct (first_with_src_bound _ _ _ _ Hi) as [Hlt | ->].
           ++ exists i. by apply first_with_src_app_l in Hi.
           ++ apply first_with_src_last in Hi as [-> Hall].
              apply Hseen in Hin as (c' & Hc' & Hu).
              destruct (Hall c' Hc'). by rewrite Hsrc.
    + split; [|split; [|split]].
      * intros u0. split.
        -- intros [->%elem_of_singleton | Hu0]%elem_of_union.
           ++ exists c. split; [|done]. apply elem_of_app. right. by apply list_elem_of_singleton.
           ++ apply Hseen in Hu0 as (c0 & Hc0 & <-). exists c0. split; [|done].
              apply elem_of_app. by left.
        -- intros (c0 & [Hc0|Hc0%list_elem_of_singleton]%elem_of_app & <-).
           ++ apply elem_of_union. right. apply Hseen. by exists c0.
           ++ subst c0. rewrite Hsrc. apply elem_of_union. left. by apply elem_of_singleton.
      * by apply sublist_app.
      * rewrite fmap_app. apply NoDup_app. split; [done|]. split; [|apply NoDup_singleton].
        intros x (c1 & -> & Hc1)%list_elem_of_fmap Hx%list_elem_of_singleton.
        apply Hnin, Hseen. exists c1. split; [|done].
        by apply (elem_of_sublist _ _ _ Hc1 Hsub).
      * intros c0. split.
        -- intros [Hc0|Hc0%list_elem_of_singleton]%elem_of_app.
           ++ apply Hfirst in Hc0 as (i & Hi). exists i.
              apply first_with_src_app_l; [|done].
              destruct Hi as [Hi _]. by apply lookup_lt_Some in Hi.
           ++ subst c0. exists (length cands). apply first_with_src_last.
              split; [done|]. intros c' Hc' Heq. apply Hnin, Hseen.
              exists c'. split; [done|]. by rewrite Heq.
        -- intros (i & Hi). destruct (first_with_src_bound _ _ _ _ Hi) as [Hlt | ->].
           ++ apply elem_of_app. left. apply Hfirst. exists i.
              by apply first_with_src_app_l in Hi.
           ++ apply first_with_src_last in Hi as [-> _].
              apply elem_of_app. right. by apply list_elem_of_singleton.
Qed.

End HarvestFacts.

(** The sort, for any comparator that orders by a key, largest first. *)
Section SortFacts.
Import Ranker.
Context {A : Type} (key : A -> Z) (cmp : A -> A -> Z).
Hypothesis cmp_key : forall x y, (cmp x y <=? 0)%Z = (key y <=? key x)%Z.

Lemma sort_insert_perm (x : A) (l : list A) : sort_insert cmp x l ≡ₚ x :: l.
Proof.
  induction l as [|y l IH]; simpl; [done|].
  destruct (cmp x y <=? 0)%Z; [done|].
  rewrite IH. apply Permutation_swap.
Qed.

Lemma js_sort_perm (l : list A) : js_sort cmp l ≡ₚ l.
Proof.
  induction l as [|x l IH]; simpl; [done|].
  fold (js_sort cmp l). by rewrite sort_insert_perm, IH.
Qed.






End SortFacts.

Section RankFacts.
Import Resolver Ranker.




(** The areas [200, 50000, 50000, 10] of the specification, found in this
    order under four URLs, with a fifth element that repeats the first URL at
    another size: the repetition is dropped and the order of the output is
    [50000, 50000, 200, 10], the two largest in discovery order. *)
Example rank_example :
  let raw s w h := {| raw_src := s; raw_alt := ""; raw_width := w; raw_height := h;
                      raw_context := "img-element" |} in
  let out := rank "https://site.test"
               [raw "a.png" 20 10; raw "/b.png" 500 100; raw "c.png" 250 200;
                raw "d.png" 5 2; raw "/a.png" 300 300]%Z in
  (fun i => (src i, area i)) <$> allImages out
    = [("https://site.test/b.png", 50000%Z); ("https://site.test/c.png", 50000%Z);
       ("https://site.test/a.png", 200%Z); ("https://site.test/d.png", 10%Z)] /\
  totalImagesFound out = 4.
Proof. vm_compute. done. Qed.



End RankFacts.

(** ** The image filter of [/extract-images] *)
Section FilterFacts.
Import Py Filter.

Lemma list_slice_to_nonneg {A} (l : list A) (n : Z) :
  (0 <= n)%Z -> list_slice_to l (Some n) = take (Z.to_nat n) l.
Proof.
  intros Hn. unfold list_slice_to, Str.clamp_index.
  destruct (Z.ltb_spec n 0) as [?|_]; [lia|].
  destruct (Z.le_gt_cases n (Z.of_nat (length l))) as [Hle|Hgt].
  - by rewrite Z.min_l.
  - rewrite Z.min_r by lia. rewrite Nat2Z.id.
    rewrite !take_ge; [done | lia | lia].
Qed.

(** With integer bounds the loop never raises and keeps exactly the images
    that pass, in order. *)
Lemma filter_images_passes (request : ImageExtractRequest) (mw mh : Z)
    (all_images : list Ranker.Image) :
  min_width request = Some mw -> min_height request = Some mh ->
  filter_images request all_images
  = inr (to_extracted <$>
           filter (fun img => passes mw mh (from_option id false (include_small request)) img = true)
             all_images).
Proof.
  intros Hw Hh. induction all_images as [|img rest IH]; [done|].
  simpl. rewrite IH. unfold keeps. rewrite Hw, Hh. simpl.
  rewrite filter_cons.
  destruct (decide (passes mw mh (from_option id false (include_small request)) img = true))
    as [Hp|Hp]; unfold passes in Hp;
    destruct (mw <=? Ranker.width img)%Z, (mh <=? Ranker.height img)%Z; simpl in *;
    try done;
    destruct (from_option id false (include_small request)
              || (100 <=? Ranker.width img)%Z && (100 <=? Ranker.height img)%Z);
    simpl in *; done.
Qed.

(** C4 (as amended). For integer [minWidth] and [minHeight] the endpoint
    keeps exactly the candidates with [width >= minWidth] and
    [height >= minHeight] that, unless [includeSmall] is true, are also at
    least 100 by 100; when [imageLimit] is a non-negative integer the kept
    list is cut to its first [imageLimit] entries.  A candidate of 80 by 80
    is excluded when [minWidth] is 100, included when [minWidth] is 10,
    [minHeight] at most 80 and [includeSmall] true, and excluded whenever
    [includeSmall] is false. *)
Theorem extract_images_filter (request : ImageExtractRequest) (data : VisualData)
    (mw mh n : Z) :
  min_width request = Some mw -> min_height request = Some mh ->
  image_limit request = Some n -> (0 <= n)%Z ->
  let small := from_option id false (include_small request) in
  (exists resp,
     extract_images request (ScrapeData data) = inr resp /\
     success resp = true /\
     images resp =
       take (Z.to_nat n)
         (to_extracted <$> filter (fun img => passes mw mh small img = true) (allImages data))) /\
  (forall img, Ranker.width img = 80%Z -> Ranker.height img = 80%Z ->
     passes 100 mh small img = false /\
     ((mh <= 80)%Z -> passes 10 mh true img = true) /\
     passes mw mh false img = false).
Proof.
  intros Hw Hh Hl Hn small. split.
  - unfold extract_images, extract_images_body.
    rewrite (filter_images_passes request mw mh _ Hw Hh). simpl.
    eexists. split; [done|]. split; [done|]. simpl.
    rewrite Hl. by apply list_slice_to_nonneg.
  - intros img Hiw Hih. unfold passes. rewrite Hiw, Hih. simpl.
    split; [done|]. split; [|by rewrite !andb_false_r].
    intros Hmh. apply Z.leb_le in Hmh. by rewrite Hmh.
Qed.

Lemma extract_images_filter_witness :
  let img w h := {| Ranker.src := "https://x.com/i.png"; Ranker.alt := "";
                    Ranker.width := w; Ranker.height := h; Ranker.format := "png";
                    Ranker.context := "img-element"; Ranker.is_base64 := false |} in
  exists resp,
    extract_images
      {| url := "https://x.com/"; image_limit := Some 2%Z; min_width := Some 10%Z;
         min_height := Some 10%Z; include_small := Some false |}
      (ScrapeData {| allImages := [img 300 200; img 80 80; img 120 100; img 500 400]%Z;
                     totalImagesFound := 4; screenshot := "" |}) = inr resp /\
    success resp = true /\
    images resp = [to_extracted (img 300 200); to_extracted (img 120 100)]%Z.
Proof.
  intros img.
  destruct (extract_images_filter
              {| url := "https://x.com/"; image_limit := Some 2%Z; min_width := Some 10%Z;
                 min_height := Some 10%Z; include_small := Some false |}
              {| allImages := [img 300 200; img 80 80; img 120 100; img 500 400]%Z;
                 totalImagesFound := 4; screenshot := "" |}
              10 10 2 eq_refl eq_refl eq_refl ltac:(lia)) as [(resp & H1 & H2 & H3) _].
  exists resp. split; [exact H1|]. split; [exact H2|]. exact H3.
Defined.

(** C4, counterexample. With [imageLimit = -1] and three candidates kept, the
    endpoint returns the first two of them: its slice drops the last entry,
    which is not a cut to the first [imageLimit] entries. *)
Lemma extract_images_negative_limit :
  let img w h := {| Ranker.src := "https://x.com/i.png"; Ranker.alt := "";
                    Ranker.width := w; Ranker.height := h; Ranker.format := "png";
                    Ranker.context := "img-element"; Ranker.is_base64 := false |} in
  let request := {| url := "https://x.com/"; image_limit := Some (-1)%Z;
                    min_width := Some 10%Z; min_height := Some 10%Z;
                    include_small := Some true |} in
  let all := [img 300 200; img 80 80; img 120 100]%Z in
  exists resp,
    extract_images request
      (ScrapeData {| allImages := all; totalImagesFound := 3; screenshot := "" |})
      = inr resp /\
    success resp = true /\
    images resp = [to_extracted (img 300 200); to_extracted (img 80 80)]%Z /\
    images resp <>
      take (Z.to_nat (-1))
        (to_extracted <$> filter (fun i => passes 10 10 true i = true) all).
Proof. intros img request all. eexists. by repeat split. Qed.

(** C10 (as amended). In every successful response [total_images] is the
    length of the returned [images] list, the count after the filter and the
    limit; it is at most [image_limit] whenever that is a non-negative
    integer; and it does not depend on [totalImagesFound], the count of all
    discovered images. *)
Theorem total_images_is_returned_count (request : ImageExtractRequest)
    (scraped : ScrapeResult) (resp : ImageExtractResponse) :
  extract_images request scraped = inr resp -> success resp = true ->
  total_images resp = Z.of_nat (length (images resp)) /\
  (forall n, image_limit request = Some n -> (0 <= n)%Z -> (total_images resp <= n)%Z) /\
  (forall data found, scraped = ScrapeData data ->
     extract_images request
       (ScrapeData {| allImages := allImages data; totalImagesFound := found;
                      screenshot := screenshot data |}) = inr resp).
Proof.
  unfold extract_images, extract_images_body.
  destruct scraped as [msg|data]; simpl; [by intros [= <-]|].
  destruct (filter_images request (allImages data)) as [e|filtered] eqn:Hf; simpl;
    [by intros [= <-]|].
  intros [= <-] _. simpl. split; [done|]. split.
  - intros n Hl Hn. rewrite Hl, list_slice_to_nonneg by done.
    rewrite length_take. lia.
  - intros data' found [= <-]. simpl. by rewrite Hf.
Qed.

Lemma total_images_is_returned_count_witness :
  let img w h := {| Ranker.src := "https://x.com/i.png"; Ranker.alt := "";
                    Ranker.width := w; Ranker.height := h; Ranker.format := "png";
                    Ranker.context := "img-element"; Ranker.is_base64 := false |} in
  let request := {| url := "https://x.com/"; image_limit := Some 1%Z;
                    min_width := Some 10%Z; min_height := Some 10%Z;
                    include_small := Some true |} in
  let scraped := ScrapeData {| allImages := [img 300 200; img 80 80; img 5 5]%Z;
                               totalImagesFound := 3; screenshot := "" |} in
  exists resp, extract_images request scraped = inr resp /\ total_images resp = 1%Z.
Proof.
  intros img request scraped. eexists. split; [reflexivity|].
  match goal with |- total_images ?r = _ =>
    destruct (total_images_is_returned_count request scraped r eq_refl eq_refl) as [H _]
  end.
  rewrite H. reflexivity.
Defined.

(** C10, counterexample. With [image_limit = -1] and three images kept by the
    filter the response is successful and reports [total_images = 2], which
    is not at most [image_limit]. *)
Lemma total_images_exceeds_negative_limit :
  let img w h := {| Ranker.src := "https://x.com/i.png"; Ranker.alt := "";
                    Ranker.width := w; Ranker.height := h; Ranker.format := "png";
                    Ranker.context := "img-element"; Ranker.is_base64 := false |} in
  let request := {| url := "https://x.com/"; image_limit := Some (-1)%Z;
                    min_width := Some 10%Z; min_height := Some 10%Z;
                    include_small := Some true |} in
  exists resp,
    extract_images request
      (ScrapeData {| allImages := [img 300 200; img 80 80; img 120 100]%Z;
                     totalImagesFound := 3; screenshot := "" |}) = inr resp /\
    success resp = true /\
    total_images resp = 2%Z /\
    ~ (total_images resp <= -1)%Z.
Proof. intros img request. eexists. repeat split. simpl. lia. Qed.

End FilterFacts.

(** ** The safety normalizer *)
Section NormalizerFacts.
Import Py Normalizer.
Variable py_repr : pyval -> string.

Lemma collect_falsy (entry : pyval -> list pyval) (v : pyval) :
  truthy v = false -> collect entry v = inr [].
Proof. intros H. unfold collect. by rewrite H. Qed.

Lemma collect_loopable (entry : pyval -> list pyval) (v : pyval) :
  loopable v -> exists xs, collect entry v = inr xs.
Proof.
  intros [H | [items H]].
  - exists []. by apply collect_falsy.
  - unfold collect. rewrite H. destruct (truthy v); by eexists.
Qed.

(** The loop raises exactly on a truthy value that cannot be iterated. *)
Lemma collect_raises (entry : pyval -> list pyval) (v : pyval) (e : exn) :
  collect entry v = inl e ->
  truthy v = true /\ e = TypeError ("'" +:+ type_name v +:+ "' object is not iterable").
Proof.
  unfold collect. destruct (truthy v); [|done].
  destruct v; simpl; try done; by intros [= <-].
Qed.

(** A logo that is absent or is not a dict is not usable. *)
Lemma usable_logo_not_dict (logo : pyval) :
  (forall d, logo <> PDict d) -> usable_logo py_repr logo = None.
Proof. intros H. destruct logo; try done. by destruct (H d). Qed.

Lemma usable_logo_absent (data : dict) :
  lookup_key "logo" data = None -> usable_logo py_repr (get data "logo") = None.
Proof. intros H. unfold get, get_default. by rewrite H. Qed.

(** C5 (as amended). Whenever [navigation] and [headings] are absent, falsy
    or iterable, the normalizer returns a dict in which: an absent or empty
    navigation is exactly the [Home]/[About] placeholder; absent or empty
    headings are exactly [[{"text": "Welcome", "level": "h1"}]]; an absent or
    unusable logo is the text logo of the normalized title; every string
    field is its literal default when absent and [str(value)] otherwise;
    every flag is [False] when absent and [bool(value)] otherwise; and
    [allImages] and [totalImagesFound] are passed through, [[]] and [0]
    standing in when absent. *)
Theorem safe_data_cleanup_defaults (data : dict) :
  loopable (get_default data "navigation" (PList [])) ->
  loopable (get_default data "headings" (PList [])) ->
  exists out,
    safe_data_cleanup py_repr data = inr out /\
    (truthy (get_default data "navigation" (PList [])) = false ->
       lookup_key "navigation" out = Some (PList default_navigation)) /\
    (truthy (get_default data "headings" (PList [])) = false ->
       lookup_key "headings" out = Some (PList default_headings)) /\
    (usable_logo py_repr (get data "logo") = None ->
       lookup_key "logo" out
       = Some (PDict [("type", PStr "text");
                      ("text", PStr (py_str py_repr (get_default data "title" (PStr "Website"))))])) /\
    (forall k d, (k, d) ∈ string_fields ->
       lookup_key k out
       = Some (PStr (match lookup_key k data with
                     | Some v => py_str py_repr v
                     | None => d
                     end))) /\
    (forall k, k ∈ flag_fields ->
       lookup_key k out
       = Some (PBool (match lookup_key k data with
                      | Some v => truthy v
                      | None => false
                      end))) /\
    lookup_key "allImages" out = Some (get_default data "allImages" (PList [])) /\
    lookup_key "totalImagesFound" out = Some (get_default data "totalImagesFound" (PInt 0)).
Proof.
  intros Hnav Hhead.
  destruct (collect_loopable nav_entry _ Hnav) as [navs Hnavs].
  destruct (collect_loopable heading_entry _ Hhead) as [heads Hheads].
  unfold safe_data_cleanup. rewrite Hnavs. simpl. rewrite Hheads. simpl.
  eexists. split; [reflexivity|].
  split; [|split; [|split; [|split; [|split; [|split]]]]].
  - intros Hf. rewrite (collect_falsy _ _ Hf) in Hnavs. by injection Hnavs as <-.
  - intros Hf. rewrite (collect_falsy _ _ Hf) in Hheads. by injection Hheads as <-.
  - intros Hl. by rewrite Hl.
  - intros k d Hk. unfold string_fields in Hk. unfold get_default.
    repeat (apply elem_of_cons in Hk as [[= -> ->]|Hk];
            [simpl; by destruct (lookup_key _ data)|]).
    by apply elem_of_nil in Hk.
  - intros k Hk. unfold flag_fields in Hk. unfold get_default.
    repeat (apply elem_of_cons in Hk as [->|Hk];
            [simpl; by destruct (lookup_key _ data)|]).
    by apply elem_of_nil in Hk.
  - done.
  - done.
Qed.

End NormalizerFacts.

Section NormalizerExamples.
Import Py Normalizer.

(** The theorem at a snapshot that has a title and nothing else. *)
Lemma safe_data_cleanup_defaults_witness :
  exists out,
    safe_data_cleanup (fun _ => "") [("title", PStr "Orchid")] = inr out /\
    lookup_key "navigation" out = Some (PList default_navigation) /\
    lookup_key "headings" out = Some (PList default_headings) /\
    lookup_key "logo" out = Some (PDict [("type", PStr "text"); ("text", PStr "Orchid")]) /\
    lookup_key "backgroundColor" out = Some (PStr "#ffffff") /\
    lookup_key "textColor" out = Some (PStr "#333333").
Proof.
  destruct (safe_data_cleanup_defaults (fun _ => "") [("title", PStr "Orchid")])
    as (out & Hout & Hnav & Hhead & Hlogo & Hstr & _).
  - left. reflexivity.
  - left. reflexivity.
  - exists out. split; [exact Hout|].
    split; [apply Hnav; reflexivity|].
    split; [apply Hhead; reflexivity|].
    split; [apply Hlogo; reflexivity|].
    split.
    + apply (Hstr "backgroundColor" "#ffffff"). unfold string_fields.
      do 2 apply list_elem_of_further. apply list_elem_of_here.
    + apply (Hstr "textColor" "#333333"). unfold string_fields.
      do 3 apply list_elem_of_further. apply list_elem_of_here.
Defined.

(** C5, counterexample. A field of the wrong type is not replaced by its
    default: a [backgroundColor] that is the integer 123 comes out as the
    string ["123"], whatever [repr] does; and the placeholder for missing
    headings carries a level, it is not [[{"text": "Welcome"}]]. *)
Lemma safe_data_cleanup_coerces_wrong_type :
  ~ (exists py_repr out,
       safe_data_cleanup py_repr [("backgroundColor", PInt 123)] = inr out /\
       lookup_key "backgroundColor" out = Some (PStr "#ffffff")) /\
  (exists out,
     safe_data_cleanup (fun _ => "") [("backgroundColor", PInt 123)] = inr out /\
     lookup_key "backgroundColor" out = Some (PStr "123")) /\
  ~ (exists py_repr out,
       safe_data_cleanup py_repr [] = inr out /\
       lookup_key "headings" out = Some (PList [PDict [("text", PStr "Welcome")]])).
Proof.
  split; [|split].
  - intros (py_repr & out & Hout & Hbg). by injection Hout as <-.
  - eexists. by split.
  - intros (py_repr & out & Hout & Hh). by injection Hout as <-.
Qed.

(** A truthy navigation that cannot be iterated makes the normalizer raise. *)
Example safe_data_cleanup_raises :
  safe_data_cleanup (fun _ => "") [("navigation", PInt 5)]
  = inl (TypeError "'int' object is not iterable").
Proof. reflexivity. Qed.

End NormalizerExamples.

(** ** Searching and slicing *)
Section SliceFacts.
Import Str.

Lemma contains_cons (sub : string) (c : ascii) (r : string) :
  contains sub (String c r) = starts_with sub (String c r) || contains sub r.
Proof. reflexivity. Qed.



Lemma drop_append (a b : string) : drop (String.length a) (a +:+ b) = b.
Proof. induction a as [|c a IH]; simpl; [apply drop_0 | done]. Qed.

Lemma substring_prefix (a b : string) :
  String.substring 0 (String.length a) (a +:+ b) = a.
Proof.
  induction a as [|c a IH]; simpl.
  - by destruct b.
  - by rewrite IH.
Qed.

Lemma substring_middle (a b c : string) :
  String.substring (String.length a) (String.length b) (a +:+ b +:+ c) = b.
Proof.
  induction a as [|x a IH]; simpl; [apply substring_prefix | done].
Qed.


(** [find_at] counts from the offset it is given. *)
Lemma find_at_shift (sub s : string) (k : nat) :
  find_at sub s k = (fun i => k + i) <$> find_at sub s 0.
Proof.
  revert k. induction s as [|c r IH]; intros k; simpl.
  - destruct (starts_with sub ""); simpl; [f_equal; lia | done].
  - destruct (starts_with sub (String c r)); simpl; [f_equal; lia|].
    rewrite (IH (S k)), (IH 1). destruct (find_at sub r 0); simpl; [f_equal; lia | done].
Qed.

Lemma find_at_contains (sub s : string) :
  contains sub s = true <-> exists i, find_at sub s 0 = Some i.
Proof.
  induction s as [|c r IH]; simpl.
  - destruct (starts_with sub ""); simpl; split; intros H; try done;
      [by exists 0 | by destruct H].
  - destruct (starts_with sub (String c r)); simpl; [split; by eauto|].
    rewrite IH, (find_at_shift sub r 1). split; intros [i Hi].
    + rewrite Hi. by eexists.
    + destruct (find_at sub r 0); [by eexists | done].
Qed.

(** [s.find(sub)] when the first occurrence is known. *)
Lemma find_first (sub s : string) (i : nat) :
  find_at sub s 0 = Some i -> find sub s 0 = Z.of_nat i.
Proof.
  intros H. unfold find, clamp_index. simpl.
  destruct (Z.ltb_spec (Z.of_nat (String.length s)) 0) as [?|_]; [lia|].
  rewrite Z.min_l by lia. rewrite Z2Nat.inj_0, drop_0, H. done.
Qed.

(** [s.find(sub, start)] from an offset inside the string. *)
Lemma find_from (sub a rest : string) (i : nat) :
  find_at sub rest 0 = Some i ->
  find sub (a +:+ rest) (Z.of_nat (String.length a)) = Z.of_nat (String.length a + i).
Proof.
  intros H. unfold find, clamp_index. rewrite length_append.
  destruct (Z.ltb_spec (Z.of_nat (String.length a + String.length rest))
              (Z.of_nat (String.length a))) as [?|_]; [lia|].
  destruct (Z.ltb_spec (Z.of_nat (String.length a)) 0) as [?|_]; [lia|].
  rewrite Z.min_l by lia. rewrite Nat2Z.id, drop_append, find_at_shift, H. done.
Qed.




(** [s[lo:hi]] for bounds inside the string. *)
Lemma slice_inside (s : string) (lo hi : nat) :
  lo <= hi <= String.length s ->
  slice s (Some (Z.of_nat lo)) (Some (Z.of_nat hi)) = String.substring lo (hi - lo) s.
Proof.
  intros H. unfold slice, clamp_index. simpl.
  destruct (Z.ltb_spec (Z.of_nat lo) 0) as [?|_]; [lia|].
  destruct (Z.ltb_spec (Z.of_nat hi) 0) as [?|_]; [lia|].
  rewrite !Z.min_l by lia. f_equal; lia.
Qed.


Lemma slice_to (s : string) (hi : nat) :
  hi <= String.length s ->
  slice s None (Some (Z.of_nat hi)) = String.substring 0 hi s.
Proof.
  intros H. unfold slice, clamp_index. simpl.
  destruct (Z.ltb_spec (Z.of_nat hi) 0) as [?|_]; [lia|].
  rewrite !Z.min_l by lia. f_equal; lia.
Qed.

End SliceFacts.

(** ** The LLM boundary *)
Section BoundaryFacts.
Import Str LLMBoundary.

Lemma replace_go_unfold (old new : string) (c : ascii) (r : string) :
  replace_go old new 0 (String c r) =
  if starts_with old (String c r)
  then new +:+ replace_go old new (String.length old - 1) r
  else String c (replace_go old new 0 r).
Proof. reflexivity. Qed.



Lemma starts_with_open_tag (s : string) :
  starts_with "<html>" s = true -> starts_with "<html" s = true.
Proof. by intros [r ->]%starts_with_spec. Qed.









(** The response of the specification's example: leading prose, a fenced
    block without DOCTYPE, trailing prose. *)
Example boundary_example :
  boundary ("Here is the page:" +:+ nl +:+ "```html" +:+ nl +:+
            "<html><body>Hi</body></html>" +:+ nl +:+ "```" +:+ nl +:+
            "Hope this helps.")
  = "<!DOCTYPE html>" +:+ nl +:+ "<html><body>Hi</body></html>".
Proof. reflexivity. Qed.



(** With an opening fence that is never closed, the slice ends one character
    before the end of the response: the last character is lost. *)
Example boundary_unclosed_fence :
  _extract_html_from_response ("```html" +:+ nl +:+ "<html><body>x</body></html>")
  = "<html><body>x</body></html".
Proof. reflexivity. Qed.

End BoundaryFacts.

(** ** The [/clone] endpoint on total failure *)
Section CloneFacts.
Import Str Py Clone.

Variable py_repr : pyval -> string.
Variable PLAYWRIGHT_AVAILABLE : bool.
Variable agent_primary : bool.
Variable scrape_with_super_playwright : string -> dict.
Variable scrape_with_mcp : string -> dict.
Variable api_key : option string.
Variable build_prompt : dict -> exn + string.
Variable messages_create : string -> exn + string.

(** An exception the interpreter raises while the prompt is put together
    (a [KeyError] or a [TypeError] on an ill-formed image entry) carries a
    message. *)
Hypothesis build_prompt_message :
  forall data e, build_prompt data = inl e -> exn_str e <> "".






(** X22. A failed scrape alone does not fail the request: without the backup
    agent the error dict is normalized into the default data, and with an API
    key, a prompt and an answering model the response is a success that
    carries the cleaned answer. *)
Lemma clone_recovers_from_failed_scrape (request_url msg prompt text : string)
    (c : ascii) (key : string) :
  (forall url, scrape_with_super_playwright url = [("error", PStr msg)]) ->
  agent_primary = false ->
  api_key = Some (String c key) ->
  (forall data, build_prompt data = inr prompt) ->
  messages_create prompt = inr text ->
  exists resp,
    clone_website py_repr PLAYWRIGHT_AVAILABLE agent_primary
      scrape_with_super_playwright scrape_with_mcp api_key build_prompt
      messages_create request_url = inr resp /\
    success resp = true /\
    generated_html resp = clean_html text.
Proof.
  intros Hscrape Hagent Hkey Hprompt Hanswer.
  unfold clone_website, clone_body, HTMLGenerator.
  set (url := if negb _ then _ else _).
  rewrite Hscrape, Hagent, Hkey. simpl.
  unfold create_html. simpl. rewrite Hprompt. simpl. rewrite Hanswer. simpl.
  eexists. split; [reflexivity|]. by split.
Qed.

End CloneFacts.

Section CloneExamples.
Import Str Py Clone.


(** A request whose navigation timed out, with an API key and an answering
    model: the response is a success. *)
Lemma clone_recovers_from_failed_scrape_witness :
  exists resp,
    clone_website (fun _ => "") true false
      (fun _ => [("error", PStr "Timeout 60000ms exceeded")]) (fun _ => [])
      (Some "key") (fun _ => inr "prompt") (fun _ => inr "<html></html>")
      "https://site.test/" = inr resp /\
    success resp = true /\
    generated_html resp = "<!DOCTYPE html>" +:+ nl +:+ "<html></html>".
Proof.
  apply (clone_recovers_from_failed_scrape (fun _ => "") true false
           (fun _ => [("error", PStr "Timeout 60000ms exceeded")]) (fun _ => [])
           (Some "key") (fun _ => inr "prompt") (fun _ => inr "<html></html>")
           "https://site.test/" "Timeout 60000ms exceeded" "prompt" "<html></html>"
           "k" "ey"); reflexivity.
Defined.

End CloneExamples.

(** ** Navigation strategies *)
Section NavigationFacts.
Import Py Navigation.

Variable Page : Type.
Variable goto : Page -> string -> Strategy -> Page * option exn.

(** C8. Navigation has three fixed strategies, with the hard timeouts
    30000 > 20000 > 15000.  They are tried in this order, each at most once:
    the attempts made are the first one, two or three of them.  The function
    returns after the first attempt that succeeds, without trying the
    others, and it raises exactly when all three attempts fail, the exception
    being the one of the third attempt. *)
Theorem smart_navigation_attempts (page : Page) (url : string) :
  let s1 := {| wait_until := "networkidle"; timeout := 30000 |} in
  let s2 := {| wait_until := "domcontentloaded"; timeout := 20000 |} in
  let s3 := {| wait_until := "load"; timeout := 15000 |} in
  let a1 := goto page url s1 in
  let a2 := goto a1.1 url s2 in
  let a3 := goto a2.1 url s3 in
  strategies = [s1; s2; s3] /\
  (timeout s3 < timeout s2 < timeout s1)%Z /\
  _smart_navigation Page goto page url =
    match a1.2 with
    | None => (a1.1, [s1], inr ())
    | Some _ =>
        match a2.2 with
        | None => (a2.1, [s1; s2], inr ())
        | Some _ =>
            match a3.2 with
            | None => (a3.1, [s1; s2; s3], inr ())
            | Some e => (a3.1, [s1; s2; s3], inl e)
            end
        end
    end /\
  (exists rest, strategies = (_smart_navigation Page goto page url).1.2 ++ rest) /\
  (_smart_navigation Page goto page url).1.2 <> [] /\
  NoDup (_smart_navigation Page goto page url).1.2 /\
  (forall e,
     (_smart_navigation Page goto page url).2 = inl e <->
     is_Some a1.2 /\ is_Some a2.2 /\ a3.2 = Some e).
Proof.
  intros s1 s2 s3 a1 a2 a3.
  assert (_smart_navigation Page goto page url =
          match a1.2 with
          | None => (a1.1, [s1], inr ())
          | Some _ =>
              match a2.2 with
              | None => (a2.1, [s1; s2], inr ())
              | Some _ =>
                  match a3.2 with
                  | None => (a3.1, [s1; s2; s3], inr ())
                  | Some e => (a3.1, [s1; s2; s3], inl e)
                  end
              end
          end) as Hrun.
  { unfold _smart_navigation, strategies. simpl.
    subst a3 a2 a1. fold s1 s2 s3.
    destruct (goto page url s1) as [p1 [e1|]]; simpl; [|done].
    destruct (goto p1 url s2) as [p2 [e2|]]; simpl; [|done].
    by destruct (goto p2 url s3) as [p3 [e3|]]. }
  split; [done|]. split; [simpl; lia|]. split; [exact Hrun|].
  assert (NoDup [s1; s2; s3]) as Hnd.
  { apply (NoDup_fmap_1 timeout). by apply (bool_decide_unpack _). }
  rewrite Hrun. unfold strategies. fold s1 s2 s3.
  destruct (a1.2) as [e1|]; simpl.
  - destruct (a2.2) as [e2|]; simpl.
    + destruct (a3.2) as [e3|]; simpl.
      * split; [by exists []|]. split; [done|]. split; [done|].
        intros e. split; [intros [= ->]; eauto | by intros (_ & _ & [= ->])].
      * split; [by exists []|]. split; [done|]. split; [done|].
        intros e. split; [done | by intros (_ & _ & ?)].
    + split; [by exists [s3]|]. split; [done|].
      split; [by apply (NoDup_app [s1; s2] [s3]) in Hnd as [? _]|].
      intros e. split; [done | by intros (_ & [? ?] & _)].
  - split; [by exists [s2; s3]|]. split; [done|].
    split; [by apply (NoDup_app [s1] [s2; s3]) in Hnd as [? _]|].
    intros e. split; [done | by intros ([? ?] & _)].
Qed.

End NavigationFacts.

Section NavigationExamples.
Import Py Navigation.

(** A page on which the first two strategies time out and the third loads;
    the page state counts the attempts. *)
Example smart_navigation_third :
  _smart_navigation nat
    (fun n _ s => (S n, if n <? 2 then Some (Exception (wait_until s)) else None))
    0 "https://site.test/"
  = (3, strategies, inr ()).
Proof. reflexivity. Qed.

(** A page on which every strategy fails: three attempts, and the failure of
    the last one is raised. *)
Example smart_navigation_exhausted :
  _smart_navigation nat
    (fun n _ s => (S n, Some (Exception (wait_until s))))
    0 "https://site.test/"
  = (3, strategies, inl (Exception "load")).
Proof. reflexivity. Qed.

End NavigationExamples.

(** ** Release of the browser *)
Section ScrapeFacts.
Import Py Scrape.

Variable World : Type.
Variable perform : op -> World -> World * option exn.







End ScrapeFacts.

Section ScrapeExamples.
Import Py Scrape.

(** A run of [scrape_with_super_playwright] in which the sixth operation,
    the wait after [goto], raises: [browser.close()] is not reached, the
    browser goes down with the Playwright driver, and the function returns
    the error dict.  The world counts the operations performed. *)
Example super_playwright_error_path :
  scrape_with_super_playwright nat
    (fun _ n => (S n, if n =? 5 then Some (Exception "Timeout 3000ms exceeded") else None))
    true 0
  = (6,
     [Did PlaywrightStart true; Did Launch true; Did NewContext true; Did NewPage true;
      Did (Step "goto") true; Did (Step "wait_for_timeout") false; PlaywrightStop],
     inr (ReturnedError "Timeout 3000ms exceeded")).
Proof. reflexivity. Qed.

(** The same failure in [scrape_website]: the [finally] clause closes the
    browser before the block is left, and the exception propagates. *)
Example scrape_website_error_path :
  scrape_website nat
    (fun _ n => (S n, if n =? 5 then Some (Exception "Timeout 3000ms exceeded") else None))
    0
  = (7,
     [Did PlaywrightStart true; Did Launch true; Did NewContext true; Did NewPage true;
      Did (Step "_smart_navigation") true; Did (Step "_wait_for_content") false;
      Did BrowserClose true; PlaywrightStop],
     inl (Exception "Timeout 3000ms exceeded")).
Proof. reflexivity. Qed.

End ScrapeExamples.

(** ** The inferred format as a token *)
Section FormatToken.
Import Str Resolver.

Lemma all_chars_impl (p q : ascii -> bool) (s : string) :
  (forall c, p c = true -> q c = true) ->
  all_chars p s = true -> all_chars q s = true.
Proof.
  intros Hpq. induction s as [|c r IH]; [done|].
  cbn [all_chars]. intros [Hc Hr]%andb_true_iff.
  by rewrite (Hpq c Hc), (IH Hr).
Qed.

Lemma lower_char_class (c : ascii) :
  is_alnum c = true -> is_digit (lower_char c) || is_lower (lower_char c) = true.
Proof.
  unfold is_alnum, lower_char. destruct (is_upper c) eqn:Hu.
  - intros _. apply orb_true_iff. right. unfold is_upper in Hu. unfold is_lower, code in *.
    apply andb_true_iff in Hu as [H1%Nat.leb_le H2%Nat.leb_le].
    rewrite nat_ascii_embedding by lia.
    apply andb_true_iff. split; apply Nat.leb_le; lia.
  - by rewrite orb_false_r.
Qed.

Lemma all_chars_lower (s : string) :
  all_chars is_alnum s = true ->
  all_chars (fun c => is_digit c || is_lower c) (lower s) = true.
Proof.
  induction s as [|c r IH]; [done|].
  cbn [all_chars lower]. intros [Hc Hr]%andb_true_iff.
  by rewrite (lower_char_class c Hc), (IH Hr).
Qed.

Lemma lower_class_word (c : ascii) :
  is_digit c || is_lower c = true -> is_word c = true.
Proof.
  unfold is_word, is_alnum. intros [->| ->]%orb_true_iff; [done|].
  by rewrite !orb_true_r.
Qed.

Lemma lower_nonempty (s : string) : s <> "" -> lower s <> "".
Proof. by destruct s. Qed.

(** X2. The inferred format is always a usable token: it is never empty,
    it consists of letters, digits and underscores only, and for a source
    that is not a data-URI of lower-case letters and digits only. *)
Theorem getImageFormat_token (src : string) :
  getImageFormat src <> "" /\
  all_chars is_word (getImageFormat src) = true /\
  (starts_with "data:" src = false ->
   all_chars (fun c => is_digit c || is_lower c) (getImageFormat src) = true).
Proof.
  unfold getImageFormat. destruct (starts_with "data:" src) eqn:Hd.
  - destruct (regex_search match_data_image src) as [g|] eqn:Hg; [|done].
    apply regex_search_Some in Hg as (i & Hm & _).
    apply match_data_image_spec in Hm as (rest & _ & Hne & Hw & _). done.
  - destruct (regex_search match_extension src) as [g|] eqn:Hg; [|done].
    apply regex_search_Some in Hg as (i & Hm & _).
    apply match_extension_spec in Hm as (rest & _ & Hne & Hw & _).
    pose proof (all_chars_lower g Hw) as Hl.
    split; [by apply lower_nonempty|]. split; [|done].
    revert Hl. apply all_chars_impl, lower_class_word.
Qed.

Lemma query_or_end_append (r q : string) :
  query_or_end (r +:+ String "?" q) = query_or_end r.
Proof. by destruct r. Qed.

Lemma greedy_plus_append_query (r q : string) :
  greedy_plus is_alnum query_or_end (r +:+ String "?" q)
  = greedy_plus is_alnum query_or_end r.
Proof.
  induction r as [|c r IH]; [done|].
  cbn [String.append greedy_plus]. by rewrite IH, query_or_end_append.
Qed.

Lemma match_extension_append_query (c : ascii) (r q : string) :
  match_extension (String c (r +:+ String "?" q)) = match_extension (String c r).
Proof.
  unfold match_extension. cbn [strip_prefix].
  destruct (Ascii.eqb "." c); [apply greedy_plus_append_query|done].
Qed.

Lemma regex_search_append_query (s q g : string) :
  regex_search match_extension s = Some g ->
  regex_search match_extension (s +:+ String "?" q) = Some g.
Proof.
  induction s as [|c r IH]; [done|].
  cbn [String.append regex_search]. rewrite match_extension_append_query.
  destruct (match_extension (String c r)); [done|apply IH].
Qed.

Lemma starts_with_append_inv (p s : string) (c : ascii) (t : string) :
  starts_with p (s +:+ String c t) = true ->
  starts_with p s = true \/ contains (String c "") p = true.
Proof.
  revert s. induction p as [|a p IH]; intros s; [by left|].
  destruct s as [|b s].
  - cbn [String.append starts_with contains].
    destruct (Ascii.eqb a c) eqn:E; [|done].
    apply Ascii.eqb_eq in E as ->. rewrite Ascii.eqb_refl. by right.
  - cbn [String.append starts_with].
    destruct (Ascii.eqb a b); [|done].
    intros [H|H]%IH; [by left|right].
    rewrite contains_cons, H. apply orb_true_r.
Qed.

(** X3. A query string does not change the inferred format: when a source
    that is not a data-URI has a recognised extension, the same source
    followed by [?] and any text has the same format. *)
Theorem getImageFormat_ignores_query (path query : string) :
  starts_with "data:" path = false ->
  getImageFormat path <> "unknown" ->
  getImageFormat (path +:+ "?" +:+ query) = getImageFormat path.
Proof.
  intros Hd Hk. change ("?" +:+ query) with (String "?" query).
  unfold getImageFormat in *. rewrite Hd in Hk.
  destruct (starts_with "data:" (path +:+ String "?" query)) eqn:Hd'.
  { apply starts_with_append_inv in Hd' as [H|H]; [congruence|discriminate H]. }
  destruct (regex_search match_extension path) as [g|] eqn:Hg; [|done].
  by rewrite Hd, (regex_search_append_query path query g Hg).
Qed.

Lemma getImageFormat_ignores_query_witness :
  getImageFormat ("https://cdn.site.test/hero.v2.WebP" +:+ "?" +:+ "w=640&fmt=.png")
  = "webp".
Proof.
  rewrite (getImageFormat_ignores_query "https://cdn.site.test/hero.v2.WebP"
             "w=640&fmt=.png"); [reflexivity|reflexivity|discriminate].
Defined.

End FormatToken.

(** ** Elements met again, and where the ranked images come from *)
Section HarvestFurther.
Import Resolver Ranker.

Lemma push_candidate_seen (origin : string) (st : harvest_state) (r : RawCandidate) :
  (forall u, resolveUrl origin (raw_src r) = Some u -> u ∈ st.1) ->
  push_candidate origin st r = st.
Proof.
  intros H. unfold push_candidate.
  destruct (resolveUrl origin (raw_src r)) as [u|]; [|done].
  by rewrite decide_True by by apply H.
Qed.

(** X5. Meeting an element again adds nothing: when every element of a
    further batch carries a source that an element of the first batch already
    carried, as happens when one element matches several selectors, the
    harvest of both batches is the harvest of the first. *)
Theorem harvest_revisit (origin : string) (raws again : list RawCandidate) :
  (forall r, r ∈ again -> exists r0, r0 ∈ raws /\ raw_src r0 = raw_src r) ->
  harvest origin (raws ++ again) = harvest origin raws.
Proof.
  intros H. unfold harvest. rewrite foldl_app.
  pose proof (harvest_invariant origin raws) as Hinv. cbv zeta in Hinv.
  destruct Hinv as (Hseen & _).
  generalize dependent (foldl (push_candidate origin) (∅, []) raws). intros st Hseen.
  assert (foldl (push_candidate origin) st again = st) as ->; [|done].
  induction again as [|r again IH]; [done|].
  cbn [foldl]. rewrite push_candidate_seen.
  - apply IH. intros r' Hr'. apply H. by right.
  - intros u Hu. destruct (H r) as (r0 & Hr0 & Hsrc); [by left|].
    apply Hseen. exists (make_image u r0). split; [|done].
    unfold candidates. apply list_elem_of_omap. exists r0. split; [done|].
    unfold candidate. by rewrite Hsrc, Hu.
Qed.

Lemma harvest_revisit_witness :
  let raw s := {| raw_src := s; raw_alt := ""; raw_width := 10; raw_height := 10;
                  raw_context := "img-element" |} in
  harvest "https://site.test" ([raw "/a.png"; raw "b.png"] ++ [raw "b.png"; raw "/a.png"])
  = harvest "https://site.test" [raw "/a.png"; raw "b.png"].
Proof.
  intros raw. apply harvest_revisit.
  intros r Hr. exists r. split; [|done].
  repeat (apply elem_of_cons in Hr as [->|Hr]); [| |by apply elem_of_nil in Hr].
  - right. left.
  - left.
Defined.

Lemma resolveUrl_nonempty (origin url resolved : string) :
  resolveUrl origin url = Some resolved -> resolved <> "".
Proof.
  unfold resolveUrl. destruct url as [|c u]; [done|].
  assert (forall a d v, a +:+ String d v <> "") as Happ by by intros [|].
  repeat case_match; intros [= <-]; try done; apply Happ.
Qed.

(** X6. The script invents no image: every entry of the returned
    [allImages] was read off an element of the page whose source resolves to
    the entry's URL; the URL is not empty, and the other fields are the
    element's, with the format and the inline flag computed from the URL. *)
Theorem ranked_images_from_page (origin : string) (raws : list RawCandidate)
    (img : Image) :
  img ∈ allImages (rank origin raws) ->
  exists r, r ∈ raws /\
    resolveUrl origin (raw_src r) = Some (src img) /\
    src img <> "" /\
    img = {| src := src img; alt := raw_alt r; width := raw_width r;
             height := raw_height r; format := getImageFormat (src img);
             context := raw_context r;
             is_base64 := Str.starts_with "data:" (src img) |}.
Proof.
  unfold rank. cbn [allImages]. intros Hin.
  assert (img ∈ harvest origin raws) as Hk.
  { rewrite <- (js_sort_perm by_area_desc).
    eapply elem_of_sublist; [exact Hin|apply sublist_take]. }
  pose proof (harvest_invariant origin raws) as Hinv. cbv zeta in Hinv.
  destruct Hinv as (_ & Hsub & _).
  apply (elem_of_sublist _ _ _ Hk) in Hsub.
  apply list_elem_of_omap in Hsub as (r & Hr & Hc).
  unfold candidate in Hc.
  destruct (resolveUrl origin (raw_src r)) as [u|] eqn:Hu; [|done].
  injection Hc as <-. exists r. cbn [src make_image].
  split; [done|]. split; [done|]. split; [|done].
  by apply (resolveUrl_nonempty origin (raw_src r)).
Qed.

Lemma ranked_images_from_page_witness :
  let raw s w := {| raw_src := s; raw_alt := "hero"; raw_width := w; raw_height := 10;
                    raw_context := "img-element" |} in
  exists r, r ∈ [raw "/a.png" 10%Z; raw "//cdn.site.test/b.JPG?x=1" 20%Z] /\
    resolveUrl "https://site.test" (raw_src r) = Some "https://cdn.site.test/b.JPG?x=1".
Proof.
  intros raw.
  destruct (ranked_images_from_page "https://site.test"
              [raw "/a.png" 10%Z; raw "//cdn.site.test/b.JPG?x=1" 20%Z]
              (make_image "https://cdn.site.test/b.JPG?x=1"
                 (raw "//cdn.site.test/b.JPG?x=1" 20%Z)))
    as (r & Hr & Hu & _).
  - vm_compute. left.
  - exists r. split; [exact Hr|exact Hu].
Defined.

End HarvestFurther.

(** ** The navigation and heading lists of the site analysis *)
Section SiteAnalysisFacts.
Import Py Js SiteAnalysis Normalizer.

(** A loop that pushes while fewer than [n] entries are held keeps the first
    [n] entries that pass the test. *)
Lemma capped_push {A B} (f : A -> option B) (n : nat) (acc : list B) (l : list A) :
  foldl (fun acc x =>
           match f x with
           | Some y => if length acc <? n then acc ++ [y] else acc
           | None => acc
           end) acc l
  = acc ++ take (n - length acc) (omap f l).
Proof.
  revert acc. induction l as [|x l IH]; intros acc.
  - cbn. by rewrite take_nil, app_nil_r.
  - cbn [foldl]. rewrite IH.
    change (omap f (x :: l))
      with (match f x with Some y => y :: omap f l | None => omap f l end).
    destruct (f x) as [y|]; [|done].
    destruct (Nat.ltb_spec (length acc) n) as [Hlt|Hge].
    + rewrite length_app. cbn. rewrite <- app_assoc. f_equal.
      replace (n - length acc) with (S (n - (length acc + 1))) by lia. done.
    + replace (n - length acc) with 0 by lia. done.
Qed.

Lemma capped_push_nested {A B} (f : A -> option B) (n : nat) (acc : list B)
    (ls : list (list A)) :
  foldl (fun acc l =>
           foldl (fun acc x =>
                    match f x with
                    | Some y => if length acc <? n then acc ++ [y] else acc
                    | None => acc
                    end) acc l) acc ls
  = acc ++ take (n - length acc) (omap f (concat ls)).
Proof.
  revert acc. induction ls as [|l ls IH]; intros acc.
  - cbn. by rewrite take_nil, app_nil_r.
  - cbn [foldl concat]. rewrite IH, capped_push, omap_app, take_app.
    rewrite <- app_assoc. f_equal. f_equal.
    rewrite length_app, length_take. f_equal. lia.
Qed.

Lemma foldl_fmap_fold {A B C} (g : C -> list A) (step : B -> A -> B) (acc : B)
    (cs : list C) :
  foldl (fun acc c => foldl step acc (g c)) acc cs
  = foldl (fun acc l => foldl step acc l) acc (g <$> cs).
Proof. revert acc. induction cs as [|c cs IH]; intros acc; [done|]. cbn. apply IH. Qed.

Lemma navigation_take (doc : Document) :
  navigation doc
  = take 10 (omap nav_item (concat (querySelectorAll_links doc <$> navSelectors))).
Proof.
  unfold navigation. rewrite foldl_fmap_fold.
  exact (capped_push_nested nav_item 10 [] _).
Qed.

Lemma headings_take (doc : Document) :
  headings doc = take 8 (omap heading_item (headings_h1_h2_h3 doc)).
Proof. exact (capped_push heading_item 8 [] _). Qed.

Lemma nav_item_text (link : Link) (item : NavLink) :
  nav_item link = Some item ->
  nav_text item <> "" /\ utf16_length (nav_text item) < 50 /\ nav_href item <> "".
Proof.
  unfold nav_item. destruct (trim (link_textContent link)) as [|c t] eqn:Ht; [done|].
  destruct (Nat.ltb_spec (utf16_length (String c t)) 50) as [Hlt|]; [|done].
  intros [= <-]. cbn. split; [done|]. split; [done|].
  by destruct (link_href link).
Qed.

Lemma heading_item_text (h : HeadingElement) (item : Heading) :
  heading_item h = Some item -> heading_text item <> "".
Proof.
  unfold heading_item. destruct (trim (heading_textContent h)); [done|].
  by intros [= <-].
Qed.

Lemma navigation_texts (doc : Document) (item : NavLink) :
  item ∈ navigation doc ->
  nav_text item <> "" /\ utf16_length (nav_text item) < 50 /\ nav_href item <> "".
Proof.
  rewrite navigation_take. intros Hin.
  eapply elem_of_sublist in Hin; [|apply sublist_take].
  apply list_elem_of_omap in Hin as (link & _ & Hitem).
  by apply (nav_item_text link).
Qed.

Lemma headings_texts (doc : Document) (item : Heading) :
  item ∈ headings doc -> heading_text item <> "".
Proof.
  rewrite headings_take. intros Hin.
  eapply elem_of_sublist in Hin; [|apply sublist_take].
  apply list_elem_of_omap in Hin as (h & _ & Hitem).
  by apply (heading_item_text h).
Qed.

(** X7. The navigation list is the first ten links that have a text of
    fewer than fifty UTF-16 units, taken selector by selector and, under a
    selector, in document order (a link that matches two selectors counts
    twice); the heading list is the first eight headings that have a text.
    No entry has an empty text, and no navigation entry an empty target. *)
Theorem site_lists_capped (doc : Document) :
  (navigation doc
   = take 10 (omap nav_item (concat (querySelectorAll_links doc <$> navSelectors))) /\
   length (navigation doc) <= 10 /\
   forall item, item ∈ navigation doc ->
     nav_text item <> "" /\ utf16_length (nav_text item) < 50 /\ nav_href item <> "") /\
  (headings doc = take 8 (omap heading_item (headings_h1_h2_h3 doc)) /\
   length (headings doc) <= 8 /\
   forall item, item ∈ headings doc -> heading_text item <> "").
Proof.
  split; (split; [|split]).
  - apply navigation_take.
  - rewrite navigation_take, length_take. lia.
  - apply navigation_texts.
  - apply headings_take.
  - rewrite headings_take, length_take. lia.
  - apply headings_texts.
Qed.

End SiteAnalysisFacts.

(** ** The normalizer applied to the object the script returns *)
Section SnapshotCleanup.
Import Py Js SiteAnalysis Normalizer.
Variable py_repr : pyval -> string.

Lemma collect_nav_values (navs : list NavLink) :
  (forall item, item ∈ navs -> nav_text item <> "") ->
  collect nav_entry (PList (nav_value <$> navs)) = inr (nav_value <$> navs).
Proof.
  intros H. unfold collect. destruct navs as [|n navs]; [done|].
  cbn [truthy fmap list_fmap iterate mbind exn_bind mret exn_ret].
  f_equal.
  cut (forall l, (forall item, item ∈ l -> nav_text item <> "") ->
                 concat (nav_entry <$> (nav_value <$> l)) = nav_value <$> l).
  { intros Hc. apply (Hc (n :: navs)). exact H. }
  clear. induction l as [|x l IH]; intros H; [done|].
  cbn [fmap list_fmap concat]. change (list_fmap _ _ ?f ?l) with (f <$> l).
  rewrite IH by (intros item Hi; apply H; by right).
  assert (nav_text x <> "") as Hx by (apply H; by left).
  unfold nav_entry, nav_value at 1.
  destruct x as [t h]. cbn in Hx |- *. by destruct t.
Qed.

Lemma collect_heading_values (hds : list Heading) :
  (forall item, item ∈ hds -> heading_text item <> "") ->
  collect heading_entry (PList (heading_value <$> hds)) = inr (heading_value <$> hds).
Proof.
  intros H. unfold collect. destruct hds as [|n hds]; [done|].
  cbn [truthy fmap list_fmap iterate mbind exn_bind mret exn_ret].
  f_equal.
  cut (forall l, (forall item, item ∈ l -> heading_text item <> "") ->
                 concat (heading_entry <$> (heading_value <$> l)) = heading_value <$> l).
  { intros Hc. apply (Hc (n :: hds)). exact H. }
  clear. induction l as [|x l IH]; intros H; [done|].
  cbn [fmap list_fmap concat]. change (list_fmap _ _ ?f ?l) with (f <$> l).
  rewrite IH by (intros item Hi; apply H; by right).
  assert (heading_text x <> "") as Hx by (apply H; by left).
  unfold heading_entry, heading_value at 1.
  destruct x as [t h]. cbn in Hx |- *. by destruct t.
Qed.

Lemma image_logo_src (doc : Document) (selectors : list string) (l : Logo) :
  image_logo doc selectors = Some l -> exists c s alt, l = ImageLogo (String c s) alt.
Proof.
  induction selectors as [|sel rest IH]; [done|]. cbn [image_logo].
  destruct (querySelector_img doc sel) as [img|]; [|done].
  destruct (logo_src img) as [|c s]; [done|].
  intros [= <-]. by eexists _, _, _.
Qed.

Lemma text_logo_text (doc : Document) (selectors : list string) (l : Logo) :
  text_logo doc selectors = Some l -> exists c t, l = TextLogo (String c t).
Proof.
  induction selectors as [|sel rest IH]; [done|]. cbn [text_logo].
  destruct (querySelector_textContent doc sel) as [txt|]; [|done].
  destruct (trim txt) as [|c t]; [done|].
  intros [= <-]. by eexists _, _.
Qed.

Lemma usable_logo_value (doc : Document) :
  usable_logo py_repr (logo_value (logo doc))
  = match logo doc with Some l => Some (logo_value (Some l)) | None => None end.
Proof.
  unfold logo. destruct (image_logo doc logoSelectors) as [l|] eqn:Hi.
  - by apply image_logo_src in Hi as (c & s & alt & ->).
  - destruct (text_logo doc textLogoSelectors) as [l|] eqn:Ht; [|done].
    by apply text_logo_text in Ht as (c & t & ->).
Qed.

(** X8. The normalizer leaves the script's own output as it is: applied to
    the object the extraction script returns (with the screenshot added), it
    does not raise, it keeps the twelve scalar and image fields unchanged, it
    keeps the navigation list, the heading list and the logo when the script
    found any, and it puts the placeholders (the logo made of the page title)
    where the script found none. *)
Theorem cleanup_keeps_snapshot (doc : Document) (screenshot_base64 : string) :
  let data := visual_data doc screenshot_base64 in
  exists out,
    safe_data_cleanup py_repr data = inr out /\
    (forall k, k ∈ ["url"; "siteType"; "backgroundColor"; "textColor"; "fontFamily";
                    "title"; "isDark"; "hasSearch"; "hasVideo"; "screenshot";
                    "allImages"; "totalImagesFound"] ->
       lookup_key k out = lookup_key k data) /\
    lookup_key "navigation" out
      = Some (PList (match navigation doc with
                     | [] => default_navigation
                     | _ => nav_value <$> navigation doc
                     end)) /\
    lookup_key "headings" out
      = Some (PList (match headings doc with
                     | [] => default_headings
                     | _ => heading_value <$> headings doc
                     end)) /\
    lookup_key "logo" out
      = Some (match logo doc with
              | Some l => logo_value (Some l)
              | None => PDict [("type", PStr "text"); ("text", PStr (title doc))]
              end).
Proof.
  intros data.
  pose proof (collect_nav_values (navigation doc)
                (fun item Hi => proj1 (navigation_texts doc item Hi))) as Hnav.
  pose proof (collect_heading_values (headings doc) (headings_texts doc)) as Hhd.
  pose proof (usable_logo_value doc) as Hlogo.
  unfold safe_data_cleanup.
  change (get_default data "navigation" (PList []))
    with (PList (nav_value <$> navigation doc)).
  change (get_default data "headings" (PList []))
    with (PList (heading_value <$> headings doc)).
  change (get data "logo") with (logo_value (logo doc)).
  rewrite Hnav, Hhd, Hlogo.
  cbn [mbind exn_bind mret exn_ret].
  eexists. split; [reflexivity|].
  split; [|split; [|split]].
  - intros k Hk.
    repeat (apply elem_of_cons in Hk as [->|Hk]); try reflexivity.
    by apply elem_of_nil in Hk.
  - by destruct (navigation doc).
  - by destruct (headings doc).
  - by destruct (logo doc).
Qed.

End SnapshotCleanup.

(** ** What [/extract-images] returns, whatever the request *)
Section FilterFurther.
Import Py Filter.

Lemma keeps_true (request : ImageExtractRequest) (img : Ranker.Image) :
  keeps request img = inr true ->
  exists mw mh, min_width request = Some mw /\ min_height request = Some mh /\
    passes mw mh (from_option id false (include_small request)) img = true.
Proof.
  unfold keeps, passes, py_ge.
  destruct (min_width request) as [mw|]; [|done]. cbn [mbind exn_bind].
  destruct (mw <=? Ranker.width img)%Z eqn:E1; [|done].
  destruct (min_height request) as [mh|]; [|done]. cbn [mbind exn_bind].
  destruct (mh <=? Ranker.height img)%Z eqn:E2; [|done].
  intros [= H]. exists mw, mh. by rewrite E1, E2, H.
Qed.

Lemma filter_images_sound (request : ImageExtractRequest)
    (all_images : list Ranker.Image) (out : list ExtractedImage) :
  filter_images request all_images = inr out ->
  out `sublist_of` (to_extracted <$> all_images) /\
  forall e, e ∈ out ->
    exists img, img ∈ all_images /\ e = to_extracted img /\ keeps request img = inr true.
Proof.
  revert out. induction all_images as [|img rest IH]; intros out.
  - intros [= <-]. split; [done|]. by intros e Hin%elem_of_nil.
  - cbn [filter_images].
    destruct (keeps request img) as [e|keep] eqn:Hk; [done|].
    destruct (filter_images request rest) as [e|filtered]; [done|].
    destruct (IH filtered eq_refl) as [Hsub Hall].
    cbn [mbind exn_bind mret exn_ret]. intros [= <-].
    destruct keep.
    + split; [by apply sublist_skip|].
      intros e [->|Hin]%elem_of_cons.
      * exists img. split; [by left|done].
      * destruct (Hall e Hin) as (i & Hi & He & Hki).
        exists i. split; [by right|done].
    + split; [by apply sublist_cons|].
      intros e Hin. destruct (Hall e Hin) as (i & Hi & He & Hki).
      exists i. split; [by right|done].
Qed.

Lemma list_slice_to_sublist {A} (l : list A) (hi : option Z) :
  list_slice_to l hi `sublist_of` l.
Proof. destruct hi; [apply sublist_take|done]. Qed.

(** X9. The endpoint invents no image and lets none through below the
    bounds, whatever the request (a negative or null limit, null bounds)
    and whatever the scrape: a successful response lists, in the scrape's
    order, images of the scrape that reach both bounds, both bounds being
    integers then, and that are at least 100 by 100 unless small images
    were asked for; a failed response lists nothing and carries a
    message. *)
Theorem extract_images_sound (request : ImageExtractRequest) (scraped : ScrapeResult)
    (resp : ImageExtractResponse) :
  extract_images request scraped = inr resp ->
  (success resp = true ->
     exists data, scraped = ScrapeData data /\
       images resp `sublist_of` (to_extracted <$> allImages data) /\
       forall e, e ∈ images resp ->
         exists mw mh, min_width request = Some mw /\ min_height request = Some mh /\
           (mw <= width e)%Z /\ (mh <= height e)%Z /\
           (include_small request = Some true \/
            (100 <= width e)%Z /\ (100 <= height e)%Z)) /\
  (success resp = false ->
     images resp = [] /\ total_images resp = 0%Z /\ screenshot_base64 resp = None /\
     exists msg, error_message resp = Some msg).
Proof.
  unfold extract_images, extract_images_body, try_except.
  destruct scraped as [msg|data].
  { intros [= <-]. split; [done|]. intros _. cbn. by eauto. }
  destruct (filter_images request (allImages data)) as [e|filtered] eqn:Hf.
  { intros [= <-]. split; [done|]. intros _. cbn. by eauto. }
  cbn [mbind exn_bind mret exn_ret]. intros [= <-]. split; [|done].
  intros _. exists data. split; [done|]. cbn [images].
  destruct (filter_images_sound _ _ _ Hf) as [Hsub Hall].
  split; [by etrans; [apply list_slice_to_sublist|]|].
  intros e Hin.
  eapply elem_of_sublist in Hin; [|apply list_slice_to_sublist].
  destruct (Hall e Hin) as (img & _ & -> & Hk).
  apply keeps_true in Hk as (mw & mh & Hmw & Hmh & Hp).
  exists mw, mh. split; [done|]. split; [done|]. cbn [width height to_extracted].
  unfold passes in Hp.
  apply andb_true_iff in Hp as [[Hw%Z.leb_le Hh%Z.leb_le]%andb_true_iff Hs].
  split; [done|]. split; [done|].
  apply orb_true_iff in Hs as [Hs|[H1%Z.leb_le H2%Z.leb_le]%andb_true_iff]; [|by right].
  left. by destruct (include_small request) as [[]|].
Qed.

Lemma extract_images_sound_witness :
  let img w h := {| Ranker.src := "https://x.com/i.png"; Ranker.alt := "";
                    Ranker.width := w; Ranker.height := h; Ranker.format := "png";
                    Ranker.context := "img-element"; Ranker.is_base64 := false |} in
  let request := {| url := "https://x.com/"; image_limit := Some (-1)%Z;
                    min_width := Some 100%Z; min_height := Some 10%Z;
                    include_small := None |} in
  let all := [img 300 200; img 80 80; img 120 100; img 640 480]%Z in
  exists resp,
    extract_images request
      (ScrapeData {| allImages := all; totalImagesFound := 4; screenshot := "" |})
      = inr resp /\
    images resp `sublist_of` (to_extracted <$> all).
Proof.
  intros img request all.
  set (scraped := ScrapeData {| allImages := all; totalImagesFound := 4; screenshot := "" |}).
  destruct (extract_images request scraped) as [e|resp] eqn:E; [discriminate E|].
  exists resp. split; [reflexivity|].
  destruct (extract_images_sound request scraped resp E) as [H _].
  destruct H as (data & [= <-] & Hsub & _); [by injection E as <-|exact Hsub].
Defined.

Lemma filter_images_null_width (request : ImageExtractRequest)
    (all_images : list Ranker.Image) :
  min_width request = None ->
  (exists out, filter_images request all_images = inr out) <-> all_images = [].
Proof.
  intros Hw. destruct all_images as [|img rest].
  - split; [done|]. intros _. by exists [].
  - cbn [filter_images]. unfold keeps. rewrite Hw. cbn.
    split; [by intros [out [=]]|done].
Qed.

Lemma filter_images_null_height (request : ImageExtractRequest) (mw : Z)
    (all_images : list Ranker.Image) :
  min_width request = Some mw -> min_height request = None ->
  (exists out, filter_images request all_images = inr out) <->
  (forall img, img ∈ all_images -> (Ranker.width img < mw)%Z).
Proof.
  intros Hw Hh. induction all_images as [|img rest IH].
  - split; [by intros _ img Hin%elem_of_nil|]. intros _. by exists [].
  - cbn [filter_images]. unfold keeps at 1. rewrite Hw, Hh.
    cbn [py_ge mbind exn_bind mret exn_ret].
    destruct (Z.leb_spec mw (Ranker.width img)) as [Hle|Hlt].
    + split; [by intros [out [=]]|].
      intros H. specialize (H img (list_elem_of_here _ _)). lia.
    + destruct (filter_images request rest) as [e|filtered].
      * split; [by intros [out [=]]|].
        intros H. destruct (proj2 IH) as [out [=]].
        intros i Hi. apply H. by right.
      * split; [|by eexists].
        intros _ i [->|Hi]%elem_of_cons; [done|].
        by apply (proj1 IH); [eexists|].
Qed.

(** X10. A null bound is accepted by the request model and makes the
    request fail as soon as an image reaches the comparison: with
    [min_width] null the response is a success exactly when the scrape found
    no image; with an integer [min_width] and [min_height] null, exactly
    when every image is narrower than [min_width]. *)
Theorem extract_images_null_bound (request : ImageExtractRequest) (data : VisualData) :
  exists resp,
    extract_images request (ScrapeData data) = inr resp /\
    (min_width request = None ->
       (success resp = true <-> allImages data = [])) /\
    (forall mw, min_width request = Some mw -> min_height request = None ->
       (success resp = true <->
        forall img, img ∈ allImages data -> (Ranker.width img < mw)%Z)).
Proof.
  unfold extract_images, extract_images_body, try_except.
  destruct (filter_images request (allImages data)) as [e|filtered] eqn:Hf;
    cbn [mbind exn_bind mret exn_ret]; (eexists; split; [reflexivity|]); cbn [success].
  - split.
    + intros Hw. split; [done|]. intros Hnil.
      apply (filter_images_null_width request) in Hnil as [out Hout]; [|done].
      congruence.
    + intros mw Hw Hh. split; [done|]. intros Hall.
      apply (filter_images_null_height request mw) in Hall as [out Hout]; [|done..].
      congruence.
  - split.
    + intros Hw. split; [|done]. intros _.
      apply (filter_images_null_width request); [done|by eexists].
    + intros mw Hw Hh. split; [|done]. intros _.
      apply (filter_images_null_height request mw); [done..|by eexists].
Qed.

End FilterFurther.

(** ** The shape of the normalizer's result, and when it raises *)
Section NormalizerFurther.
Import Py Normalizer.
Variable py_repr : pyval -> string.

Lemma nav_entry_shape (x e : pyval) :
  e ∈ nav_entry x -> exists t h, e = PDict [("text", PStr t); ("href", h)].
Proof.
  unfold nav_entry. destruct x as [| | |s|l|d]; try by intros ?%elem_of_nil.
  - intros ->%list_elem_of_singleton. by eexists _, _.
  - destruct (get_default d "text" (PStr "")) as [| | |t| |]; try by intros ?%elem_of_nil.
    destruct (truthy (PStr t)); [|by intros ?%elem_of_nil].
    intros ->%list_elem_of_singleton. by eexists _, _.
Qed.

Lemma heading_entry_shape (x e : pyval) :
  e ∈ heading_entry x -> exists t l, e = PDict [("text", PStr t); ("level", l)].
Proof.
  unfold heading_entry. destruct x as [| | |s|l|d]; try by intros ?%elem_of_nil.
  - intros ->%list_elem_of_singleton. by eexists _, _.
  - destruct (get_default d "text" (PStr "")) as [| | |t| |]; try by intros ?%elem_of_nil.
    destruct (truthy (PStr t)); [|by intros ?%elem_of_nil].
    intros ->%list_elem_of_singleton. by eexists _, _.
Qed.

Lemma elem_of_concat {A} (ls : list (list A)) (e : A) :
  e ∈ concat ls -> exists l, l ∈ ls /\ e ∈ l.
Proof.
  induction ls as [|l ls IH]; [by intros ?%elem_of_nil|].
  cbn [concat]. intros [H|H]%elem_of_app.
  - exists l. split; [by left|done].
  - destruct (IH H) as (l' & Hl' & He). exists l'. split; [by right|done].
Qed.

Lemma collect_entries (entry : pyval -> list pyval) (v : pyval) (l : list pyval)
    (e : pyval) :
  collect entry v = inr l -> e ∈ l -> exists x, e ∈ entry x.
Proof.
  unfold collect. destruct (truthy v).
  - destruct (iterate v) as [err|xs]; [done|].
    cbn [mbind exn_bind mret exn_ret]. intros [= <-].
    intros (es & Hes & Hin)%elem_of_concat.
    apply list_elem_of_fmap in Hes as (x & -> & _). by exists x.
  - intros [= <-]. by intros ?%elem_of_nil.
Qed.

Lemma or_default_nonempty (xs fallback : list pyval) :
  fallback <> [] -> or_default xs fallback <> [].
Proof. by destruct xs. Qed.

Lemma or_default_elem (xs fallback : list pyval) (e : pyval) :
  e ∈ or_default xs fallback -> e ∈ xs \/ e ∈ fallback.
Proof. destruct xs; [by right|by left]. Qed.

Lemma usable_logo_shape (logo l : pyval) :
  usable_logo py_repr logo = Some l ->
  (exists t, l = PDict [("type", PStr "text"); ("text", PStr t)]) \/
  (exists s a, l = PDict [("type", PStr "image"); ("src", PStr s); ("alt", PStr a)]).
Proof.
  unfold usable_logo. destruct logo as [| | | | |d]; try done.
  destruct (truthy (PDict d)); [|done].
  destruct (eq_str (get d "type") "text" && truthy (get d "text")).
  { intros [= <-]. left. by eexists. }
  destruct (eq_str (get d "type") "image" && truthy (get d "src")); [|done].
  intros [= <-]. right. by eexists _, _.
Qed.

(** X11. Whatever the input, a result of the normalizer has the same
    fifteen keys in the same order, so that an [error] or [mcp_data] key of
    the input never survives; its navigation and its headings are non-empty
    lists of dicts made of a [text] string and an [href] (a [level]); its
    logo is a text logo or an image logo. *)
Theorem safe_data_cleanup_schema (data out : dict) :
  safe_data_cleanup py_repr data = inr out ->
  out.*1 = ["url"; "siteType"; "backgroundColor"; "textColor"; "fontFamily"; "title";
            "isDark"; "hasSearch"; "hasVideo"; "screenshot"; "allImages";
            "totalImagesFound"; "navigation"; "headings"; "logo"] /\
  has_key "error" out = false /\ has_key "mcp_data" out = false /\
  (exists navs, lookup_key "navigation" out = Some (PList navs) /\ navs <> [] /\
     forall e, e ∈ navs -> exists t h, e = PDict [("text", PStr t); ("href", h)]) /\
  (exists hds, lookup_key "headings" out = Some (PList hds) /\ hds <> [] /\
     forall e, e ∈ hds -> exists t l, e = PDict [("text", PStr t); ("level", l)]) /\
  ((exists t, lookup_key "logo" out
              = Some (PDict [("type", PStr "text"); ("text", PStr t)])) \/
   (exists s a, lookup_key "logo" out
                = Some (PDict [("type", PStr "image"); ("src", PStr s);
                               ("alt", PStr a)]))).
Proof.
  unfold safe_data_cleanup.
  destruct (collect nav_entry _) as [e1|navs] eqn:Hn; [done|].
  cbn [mbind exn_bind].
  destruct (collect heading_entry _) as [e2|hds] eqn:Hh; [done|].
  cbn [mbind exn_bind mret exn_ret].
  change (getitem _ "title") with
    (inr (B:=pyval) (A:=exn) (PStr (py_str py_repr (get_default data "title" (PStr "Website"))))).
  cbn [mbind exn_bind]. intros [= <-].
  split; [reflexivity|]. split; [reflexivity|]. split; [reflexivity|].
  split; [|split].
  - eexists. split; [reflexivity|]. split; [by apply or_default_nonempty|].
    intros e [He|He]%or_default_elem.
    + destruct (collect_entries _ _ _ _ Hn He) as [x Hx]. by apply (nav_entry_shape x).
    + unfold default_navigation in He.
      repeat (apply elem_of_cons in He as [->|He]); try by eexists _, _.
      by apply elem_of_nil in He.
  - eexists. split; [reflexivity|]. split; [by apply or_default_nonempty|].
    intros e [He|He]%or_default_elem.
    + destruct (collect_entries _ _ _ _ Hh He) as [x Hx].
      by apply (heading_entry_shape x).
    + unfold default_headings in He.
      repeat (apply elem_of_cons in He as [->|He]); try by eexists _, _.
      by apply elem_of_nil in He.
  - destruct (usable_logo py_repr (get data "logo")) as [l|] eqn:Hl.
    + destruct (usable_logo_shape _ _ Hl) as [[t ->]|(s & a & ->)].
      * left. by exists t.
      * right. by exists s, a.
    + left. by eexists.
Qed.

Lemma not_loopable (v : pyval) :
  ~ loopable v <-> v = PBool true \/ exists n, v = PInt n /\ n <> 0%Z.
Proof.
  unfold loopable. split.
  - intros H. destruct v as [|[]|n|s|l|d].
    + destruct H. by left.
    + by left.
    + destruct H. by left.
    + right. exists n. split; [done|]. intros ->. destruct H. by left.
    + destruct H. right. by eexists.
    + destruct H. right. by eexists.
    + destruct H. right. by eexists.
  - intros [->|(n & -> & Hn)] [Hf|[items Hi]]; try done.
    cbn in Hf. apply negb_false_iff, Z.eqb_eq in Hf. done.
Qed.

(** X12. The normalizer raises exactly when [navigation] or [headings] is
    [True] or a non-zero integer (the values, among those modelled, that are
    truthy and cannot be iterated), and what it raises is the [TypeError] of
    the [for] statement, for [navigation] first. *)
Theorem safe_data_cleanup_raises_iff (data : dict) (e : exn) :
  let navigation := get_default data "navigation" (PList []) in
  let headings := get_default data "headings" (PList []) in
  (safe_data_cleanup py_repr data = inl e <->
   (~ loopable navigation /\
    e = TypeError ("'" +:+ type_name navigation +:+ "' object is not iterable")) \/
   (loopable navigation /\ ~ loopable headings /\
    e = TypeError ("'" +:+ type_name headings +:+ "' object is not iterable"))) /\
  (forall v, ~ loopable v <-> v = PBool true \/ exists n, v = PInt n /\ n <> 0%Z).
Proof.
  intros navigation headings. split; [|apply not_loopable].
  unfold safe_data_cleanup. fold navigation headings.
  assert (forall entry v,
            (exists l, collect entry v = inr l) <-> loopable v) as Hloop.
  { intros entry v. split; [|apply collect_loopable].
    intros [l Hl]. unfold collect, loopable in *.
    destruct (truthy v); [|by left]. right.
    destruct (iterate v) as [|items]; [done|by eexists]. }
  destruct (collect nav_entry navigation) as [e1|navs] eqn:Hn.
  { cbn [mbind exn_bind]. apply collect_raises in Hn as Hn'. destruct Hn' as [_ ->].
    assert (~ loopable navigation) as Hnl.
    { intros [l Hl]%(Hloop nav_entry). congruence. }
    split.
    - intros [= <-]. by left.
    - intros [[_ ->]|[Hl _]]; [done|by destruct Hnl]. }
  assert (loopable navigation) as Hl by (apply (Hloop nav_entry); by eexists).
  cbn [mbind exn_bind].
  destruct (collect heading_entry headings) as [e2|hds] eqn:Hh.
  { cbn [mbind exn_bind]. apply collect_raises in Hh as Hh'. destruct Hh' as [_ ->].
    assert (~ loopable headings) as Hnl.
    { intros [l Hl']%(Hloop heading_entry). congruence. }
    split.
    - intros [= <-]. by right.
    - intros [[Hnl' _]|(_ & _ & ->)]; [by destruct Hnl'|done]. }
  assert (loopable headings) as Hl2 by (apply (Hloop heading_entry); by eexists).
  split; [done|]. intros [[Hnl _]|(_ & Hnl & _)]; by destruct Hnl.
Qed.

End NormalizerFurther.

Section NormalizerFurtherExamples.
Import Py Normalizer.

Lemma safe_data_cleanup_schema_witness :
  exists out,
    safe_data_cleanup (fun _ => "")
      [("error", PStr "Timeout 60000ms exceeded"); ("mcp_data", PStr "x");
       ("navigation", PList [PStr "Shop"; PInt 3; PDict [("href", PStr "/")]])]
    = inr out /\
    has_key "error" out = false /\ has_key "mcp_data" out = false.
Proof.
  eexists. split; [reflexivity|].
  edestruct (safe_data_cleanup_schema (fun _ => "")
               [("error", PStr "Timeout 60000ms exceeded"); ("mcp_data", PStr "x");
                ("navigation", PList [PStr "Shop"; PInt 3; PDict [("href", PStr "/")]])])
    as (_ & H1 & H2 & _); [reflexivity|].
  split; [exact H1|exact H2].
Defined.

End NormalizerFurtherExamples.

(** ** What every [/clone] response holds, and what the backup adds *)
Section CloneFurther.
Import Str Py Clone.

Variable py_repr : pyval -> string.
Variable PLAYWRIGHT_AVAILABLE : bool.
Variable agent_primary : bool.
Variable scrape_with_super_playwright : string -> dict.
Variable scrape_with_mcp : string -> dict.
Variable api_key : option string.
Variable build_prompt : dict -> exn + string.
Variable messages_create : string -> exn + string.

Lemma clean_html_doctype (html_content : string) :
  starts_with "<!DOCTYPE" (clean_html html_content) = true.
Proof.
  unfold clean_html.
  match goal with |- context [negb (starts_with "<!DOCTYPE" ?h)] =>
    destruct (starts_with "<!DOCTYPE" h) eqn:E end; [done|reflexivity].
Qed.

Lemma create_html_doctype (data : dict) (html : string) :
  create_html build_prompt messages_create data = inr html ->
  starts_with "<!DOCTYPE" html = true.
Proof.
  unfold create_html. destruct (has_key "error" data).
  { destruct (getitem data "error") as [|[]]; done. }
  destruct (build_prompt data) as [|prompt]; [done|].
  cbn [mbind exn_bind]. unfold try_except.
  destruct (messages_create prompt) as [|text]; [done|].
  cbn [mbind exn_bind mret exn_ret]. intros [= <-]. apply clean_html_doctype.
Qed.

Lemma https_added (request_url : string) :
  let url := if negb (starts_with "http://" request_url
                      || starts_with "https://" request_url)
             then "https://" +:+ request_url else request_url in
  starts_with "http://" url || starts_with "https://" url = true.
Proof.
  destruct (starts_with "http://" request_url || starts_with "https://" request_url)
    eqn:E; cbn [negb]; [exact E|reflexivity].
Qed.

(** X14. Every response of [/clone] carries an HTML document:
    [generated_html] starts with [<!DOCTYPE] on success and on failure
    alike.  A success has no error message and reports the URL with its
    scheme; a failure reports the URL as requested, with a message. *)
Theorem clone_website_document (request_url : string) :
  exists resp,
    clone_website py_repr PLAYWRIGHT_AVAILABLE agent_primary
      scrape_with_super_playwright scrape_with_mcp api_key build_prompt
      messages_create request_url = inr resp /\
    starts_with "<!DOCTYPE" (generated_html resp) = true /\
    (success resp = true ->
       error_message resp = None /\
       starts_with "http://" (original_url resp)
       || starts_with "https://" (original_url resp) = true) /\
    (success resp = false ->
       original_url resp = request_url /\ exists msg, error_message resp = Some msg).
Proof.
  unfold clone_website, try_except.
  destruct (clone_body _ _ _ _ _ _ _ _) as [e|resp] eqn:Hb.
  { eexists. split; [reflexivity|]. cbn [generated_html success original_url error_message].
    split; [reflexivity|]. split; [done|]. intros _. split; [done|]. by eexists. }
  exists resp. split; [done|]. revert Hb. unfold clone_body.
  pose proof (https_added request_url) as Hs. cbv zeta in Hs. revert Hs.
  generalize (if negb (starts_with "http://" request_url
                       || starts_with "https://" request_url)
              then "https://" +:+ request_url else request_url).
  intros url Hs.
  match goal with |- mbind ?f ?m = _ -> _ => destruct m as [e1|data1] end; [done|].
  cbn [mbind exn_bind].
  match goal with |- mbind ?f ?m = _ -> _ => destruct m as [e2|data2] end; [done|].
  cbn [mbind exn_bind].
  destruct (Normalizer.safe_data_cleanup py_repr data2) as [e3|data3]; [done|].
  cbn [mbind exn_bind].
  destruct HTMLGenerator as [e4|[]]; [done|]. cbn [mbind exn_bind].
  destruct (create_html build_prompt messages_create data3) as [e5|html] eqn:Hc; [done|].
  cbn [mbind exn_bind mret exn_ret]. intros [= <-].
  cbn [generated_html success original_url error_message].
  split; [by apply (create_html_doctype data3)|]. split; [|done].
  done.
Qed.

Lemma cleanup_mcp_backup (url : string) (mcp_data : pyval) :
  Normalizer.safe_data_cleanup py_repr (mcp_backup_data url mcp_data)
  = Normalizer.safe_data_cleanup py_repr (mcp_backup_data url PNone).
Proof. reflexivity. Qed.

Lemma truthy_get_dict (d : dict) (k : string) :
  truthy (get d k) = true -> truthy (PDict d) = true.
Proof. by destruct d. Qed.

(** X13. The answer of the backup agent never reaches the generator: when
    the Playwright scrape reports an error and the agent answers, the
    response of [/clone] is the same whatever the agent answered, since the
    normalizer drops the [mcp_data] key of the data substituted for the
    scrape. *)
Theorem mcp_answer_is_discarded (mcp1 mcp2 : string -> dict) (request_url : string) :
  agent_primary = true ->
  (forall url, has_key "error" (scrape_with_super_playwright url) = true) ->
  (forall url, truthy (get (mcp1 url) "mcp_data") = true) ->
  (forall url, truthy (get (mcp2 url) "mcp_data") = true) ->
  clone_website py_repr PLAYWRIGHT_AVAILABLE agent_primary
    scrape_with_super_playwright mcp1 api_key build_prompt messages_create request_url
  = clone_website py_repr PLAYWRIGHT_AVAILABLE agent_primary
      scrape_with_super_playwright mcp2 api_key build_prompt messages_create request_url.
Proof.
  intros -> Hpw H1 H2. unfold clone_website. f_equal. unfold clone_body.
  set (url := if negb (starts_with "http://" request_url
                       || starts_with "https://" request_url)
              then "https://" +:+ request_url else request_url).
  rewrite (Hpw url).
  destruct (getitem (scrape_with_super_playwright url) "error") as [e|err];
    cbn [mbind exn_bind try_except mret exn_ret has_key lookup_key String.eqb
         Ascii.eqb Bool.eqb andb];
    rewrite (H1 url), (H2 url),
      (truthy_get_dict _ _ (H1 url)), (truthy_get_dict _ _ (H2 url));
    unfold try_except; cbn [andb mret exn_ret mbind exn_bind];
    by rewrite (cleanup_mcp_backup url (get_default (mcp1 url) "mcp_data" (PStr ""))),
         (cleanup_mcp_backup url (get_default (mcp2 url) "mcp_data" (PStr ""))).
Qed.

End CloneFurther.

Section CloneFurtherExamples.
Import Str Py Clone.

Lemma mcp_answer_is_discarded_witness :
  clone_website (fun _ => "") true true
    (fun _ => [("error", PStr "Timeout 60000ms exceeded")])
    (fun _ => [("mcp_data", PStr "a dark page with a red banner")])
    (Some "key") (fun _ => inr "prompt") (fun _ => inr "<html></html>")
    "https://site.test/"
  = clone_website (fun _ => "") true true
      (fun _ => [("error", PStr "Timeout 60000ms exceeded")])
      (fun _ => [("mcp_data", PStr "a white page")])
      (Some "key") (fun _ => inr "prompt") (fun _ => inr "<html></html>")
      "https://site.test/".
Proof.
  apply (mcp_answer_is_discarded (fun _ => "") true true
           (fun _ => [("error", PStr "Timeout 60000ms exceeded")])
           (Some "key") (fun _ => inr "prompt") (fun _ => inr "<html></html>"));
    reflexivity.
Defined.

End CloneFurtherExamples.

(** ** The LLM boundary: unclosed fences, projection, attribute-bearing
    [html] tags *)
Section BoundaryFurther.
Import Str LLMBoundary.

Lemma find_from_none (sub a rest : string) :
  contains sub rest = false ->
  find sub (a +:+ rest) (Z.of_nat (String.length a)) = (-1)%Z.
Proof.
  intros H. unfold find, clamp_index. rewrite length_append.
  destruct (Z.ltb_spec (Z.of_nat (String.length a + String.length rest))
              (Z.of_nat (String.length a))) as [?|_]; [lia|].
  destruct (Z.ltb_spec (Z.of_nat (String.length a)) 0) as [?|_]; [lia|].
  rewrite Z.min_l by lia. rewrite Nat2Z.id, drop_append, find_at_shift.
  destruct (find_at sub rest 0) as [i|] eqn:E; [|done].
  assert (contains sub rest = true) by (apply find_at_contains; by eexists).
  congruence.
Qed.





(** The cases of [lstrip] on a non-empty string: it stops, or it goes on
    after one, two or three bytes. *)
Lemma lstrip_cases (c : ascii) (r : string) :
  lstrip (String c r) = String c r \/
  lstrip (String c r) = lstrip r \/
  (exists d r1, r = String d r1 /\ lstrip (String c r) = lstrip r1) \/
  (exists d e r2, r = String d (String e r2) /\ lstrip (String c r) = lstrip r2).
Proof.
  cbn [lstrip]. destruct (is_ascii_space c); [by right; left|].
  generalize (code c). intros m.
  do 228 (destruct m as [|m];
    [first
       [ by left
       | destruct r as [|d r1]; [by left|];
         first
           [ by left
           | match goal with |- context [if ?b then _ else _] => destruct b end;
             [right; right; left; by eexists _, _ | by left]
           | destruct r1 as [|e r2]; [by left|];
             match goal with |- context [if ?b then _ else _] => destruct b end;
             [right; right; right; by eexists _, _, _ | by left] ] ]|]).
  by left.
Qed.

Lemma lstrip_suffix (s : string) : exists p, s = p +:+ lstrip s.
Proof.
  remember (String.length s) as n eqn:Hn. revert s Hn.
  induction n as [n IH] using lt_wf_ind. intros s ->.
  destruct s as [|c r]; [by exists ""|].
  destruct (lstrip_cases c r)
    as [->|[->|[(d & r1 & -> & ->)|(d & e & r2 & -> & ->)]]].
  - by exists "".
  - destruct (IH (String.length r)) with (s := r) as [p Hp]; [cbn; lia|done|].
    exists (String c p). cbn. by rewrite <- Hp.
  - destruct (IH (String.length r1)) with (s := r1) as [p Hp]; [cbn; lia|done|].
    exists (String c (String d p)). cbn. by rewrite <- Hp.
  - destruct (IH (String.length r2)) with (s := r2) as [p Hp]; [cbn; lia|done|].
    exists (String c (String d (String e p))). cbn. by rewrite <- Hp.
Qed.

Lemma rstrip_prefix (s : string) : exists q, s = rstrip s +:+ q.
Proof.
  induction s as [|c r [q Hq]]; [by exists ""|].
  cbn [rstrip]. destruct (lstrip (String c r)).
  - by eexists.
  - exists q. cbn. by rewrite <- Hq.
Qed.

Lemma occurs_strip (s : string) : occurs (strip s) s.
Proof.
  unfold strip. destruct (lstrip_suffix s) as [p Hp].
  destruct (rstrip_prefix (lstrip s)) as [q Hq].
  exists p, q. by rewrite <- Hq.
Qed.

Lemma substring_0_prefix (m : nat) (s : string) :
  exists q, s = String.substring 0 m s +:+ q.
Proof.
  revert s. induction m as [|m IH]; intros s.
  - exists s. by destruct s.
  - destruct s as [|c s]; [by exists ""|].
    destruct (IH s) as [q Hq]. exists q. cbn. by rewrite <- Hq.
Qed.

Lemma occurs_substring (n m : nat) (s : string) : occurs (String.substring n m s) s.
Proof.
  revert s. induction n as [|n IH]; intros s.
  - destruct (substring_0_prefix m s) as [q Hq]. by exists "", q.
  - destruct s as [|c s]; [by exists "", ""|].
    destruct (IH s) as (p & q & Hpq). exists (String c p), q. cbn. by rewrite <- Hpq.
Qed.

Lemma occurs_trans (a b c : string) : occurs a b -> occurs b c -> occurs a c.
Proof.
  intros (p & q & ->) (p' & q' & ->). exists (p' +:+ p), (q +:+ q').
  by rewrite !append_assoc.
Qed.

Lemma occurs_slice (s : string) (lo hi : option Z) : occurs (slice s lo hi) s.
Proof. apply occurs_substring. Qed.

(** X16. The extraction only cuts: whatever the response, the text
    extracted from it is a contiguous part of the response. *)
Theorem extraction_is_part_of_response (response : string) :
  occurs (_extract_html_from_response response) response.
Proof.
  unfold _extract_html_from_response.
  apply (occurs_trans _ (select_html response)).
  - unfold cut_after_close. destruct (contains "</html>" (select_html response)).
    + apply occurs_slice.
    + apply occurs_refl.
  - unfold select_html.
    destruct (contains fence_open response);
      [|destruct (contains doctype_marker response)].
    + eapply occurs_trans; [apply occurs_strip|apply occurs_slice].
    + eapply occurs_trans; [apply occurs_strip|apply occurs_slice].
    + apply occurs_strip.
Qed.

Lemma replace_go_absent (old new s : string) :
  contains old s = false -> replace_go old new 0 s = s.
Proof.
  induction s as [|c r IH]; [done|].
  rewrite contains_cons, replace_go_unfold.
  intros [-> Hr]%orb_false_iff. by rewrite (IH Hr).
Qed.

Lemma contains_drop (sub s : string) (k : nat) :
  contains sub s = false -> contains sub (drop k s) = false.
Proof.
  revert s. induction k as [|k IH]; intros s; [by rewrite drop_0|].
  destruct s as [|c r]; [done|].
  rewrite contains_cons, drop_S. intros [_ Hr]%orb_false_iff. by apply IH.
Qed.

Lemma contains_ensure_doctype (html : string) :
  contains "<html" (ensure_doctype html) = contains "<html" html /\
  contains "<html>" (ensure_doctype html) = contains "<html>" html /\
  contains "<head>" (ensure_doctype html) = contains "<head>" html /\
  contains "<body>" (ensure_doctype html) = contains "<body>" html /\
  contains "</html>" (ensure_doctype html) = contains "</html>" html.
Proof.
  unfold ensure_doctype.
  destruct (negb (starts_with doctype_marker html)); [|done].
  repeat split; reflexivity.
Qed.

Lemma close_expanded_body (k : nat) (s : string) :
  contains "</html>" (drop k s) = true ->
  contains "</body>" (replace_go "</html>" html_close_expanded k s) = true.
Proof.
  revert k. induction s as [|c r IH]; intros k.
  - by rewrite drop_empty.
  - destruct k as [|k]; [|rewrite drop_S; apply IH].
    rewrite drop_0, replace_go_unfold, contains_cons.
    destruct (starts_with "</html>" (String c r)); [reflexivity|].
    cbn [orb]. intros H. rewrite contains_cons, (IH 0) by by rewrite drop_0.
    apply orb_true_r.
Qed.

(** A text without [<] that begins the replaced string begins the original
    one, every replacement starting with [<]. *)
Lemma starts_with_replace_close (q r : string) :
  all_chars (fun a => negb (Ascii.eqb a "<")) q = true ->
  starts_with q (replace_go "</html>" html_close_expanded 0 r) = true ->
  starts_with q r = true.
Proof.
  revert r. induction q as [|a q IH]; intros r; [done|].
  cbn [all_chars]. intros [Ha Hq]%andb_true_iff.
  destruct r as [|c r]; [done|]. rewrite replace_go_unfold.
  destruct (starts_with "</html>" (String c r)).
  - change (html_close_expanded +:+ ?x) with (String "<" (String.substring 1 14 html_close_expanded +:+ x)).
    cbn [starts_with]. by destruct (Ascii.eqb a "<").
  - cbn [starts_with]. destruct (Ascii.eqb a c); [by apply IH|done].
Qed.

Lemma close_expanded_no_body (k : nat) (s : string) :
  contains "<body>" (drop k s) = false ->
  contains "<body>" (replace_go "</html>" html_close_expanded k s) = false.
Proof.
  revert k. induction s as [|c r IH]; intros k; [done|].
  destruct k as [|k]; [|rewrite drop_S; apply IH].
  rewrite drop_0, replace_go_unfold, contains_cons.
  intros [Hs Hr]%orb_false_iff.
  destruct (starts_with "</html>" (String c r)).
  - change (contains "<body>" (html_close_expanded +:+ ?x))
      with (contains "<body>" x).
    apply IH. by apply contains_drop.
  - rewrite contains_cons, (IH 0) by by rewrite drop_0.
    rewrite orb_false_r. revert Hs.
    change (starts_with "<body>" (String c r))
      with (if Ascii.eqb "<" c then starts_with "body>" r else false).
    change (starts_with "<body>" (String c ?x))
      with (if Ascii.eqb "<" c then starts_with "body>" x else false).
    destruct (Ascii.eqb "<" c); [|done].
    intros Hb.
    destruct (starts_with "body>" (replace_go "</html>" html_close_expanded 0 r))
      eqn:E; [|done].
    by rewrite (starts_with_replace_close "body>" r eq_refl E) in Hb.
Qed.

(** X17. An [html] tag with attributes is not recognised by the repair of
    a document without [<head>] and [<body>]: when the text holds [<html]
    but not the literal [<html>], only the closing tag is expanded, and
    the result holds a [</body>] without any [<body>]. *)
Theorem post_process_unbalanced_body (html : string) :
  contains "<html" html = true -> contains "<html>" html = false ->
  contains "<head>" html = false -> contains "<body>" html = false ->
  contains "</html>" html = true ->
  _post_process_html html
    = replace "</html>" html_close_expanded (ensure_doctype html) /\
  contains "</body>" (_post_process_html html) = true /\
  contains "<body>" (_post_process_html html) = false.
Proof.
  intros H1 H2 H3 H4 H5.
  destruct (contains_ensure_doctype html) as (E1 & E2 & E3 & E4 & E5).
  assert (_post_process_html html
          = replace "</html>" html_close_expanded (ensure_doctype html)) as ->.
  { unfold _post_process_html. rewrite E1, E3, E4, H1, H3, H4. cbn [negb andb].
    unfold replace at 2. by rewrite replace_go_absent by by rewrite E2. }
  split; [done|]. unfold replace. split.
  - apply close_expanded_body. by rewrite drop_0, E5.
  - apply close_expanded_no_body. by rewrite drop_0, E4.
Qed.

Lemma post_process_unbalanced_body_witness :
  _post_process_html "<html lang=en><p>Hi</p></html>"
  = "<!DOCTYPE html>" +:+ nl +:+ "<html lang=en><p>Hi</p></body>" +:+ nl +:+ "</html>".
Proof.
  destruct (post_process_unbalanced_body "<html lang=en><p>Hi</p></html>")
    as [H _]; [reflexivity..|].
  rewrite H. reflexivity.
Defined.

End BoundaryFurther.

(** ** The context prepared for the model *)
Section ContextFacts.
Import Str Py Context.











End ContextFacts.

(** ** Overlays and scrolling *)
Section OverlayFacts.
Import Overlays.

Variable Page : Type.
Variable click : Page -> string -> Page * bool.
Variable wait_for_timeout : Page -> Z -> Page * bool.

Lemma overlay_loop_clicked (selectors : list string) (page : Page) (clicked : list string) :
  exists more,
    (overlay_loop Page click wait_for_timeout selectors page clicked).2 = clicked ++ more /\
    more `sublist_of` selectors /\
    ((forall p ms, (wait_for_timeout p ms).2 = true) -> length more <= 1) /\
    ((forall p selector, selector ∈ selectors -> (click p selector).2 = false) ->
     more = []) /\
    (forall selector, selector ∈ selectors ->
       (forall p, (click p selector).2 = true) -> more <> []).
Proof.
  revert page clicked. induction selectors as [|selector rest IH]; intros page clicked.
  - exists []. cbn. rewrite app_nil_r. split; [done|]. split; [done|].
    split; [by auto|]. split; [done|]. by intros s Hs%elem_of_nil.
  - cbn [overlay_loop].
    destruct (click page selector) as [page1 ok] eqn:Hc. destruct ok.
    + destruct (wait_for_timeout page1 1000) as [page2 ok2] eqn:Hw. destruct ok2.
      * exists [selector]. cbn [snd]. split; [done|].
        split; [apply sublist_skip, sublist_nil_l|]. split; [by auto|].
        split; [|done]. intros Hall.
        specialize (Hall page selector (list_elem_of_here _ _)). by rewrite Hc in Hall.
      * destruct (IH page2 (clicked ++ [selector])) as (more & -> & Hsub & Hone & _ & _).
        exists (selector :: more). rewrite <- app_assoc. split; [done|].
        split; [by apply sublist_skip|]. split; [|split; [|done]].
        -- intros Hwait. specialize (Hwait page1 1000%Z). by rewrite Hw in Hwait.
        -- intros Hall.
           specialize (Hall page selector (list_elem_of_here _ _)). by rewrite Hc in Hall.
    + destruct (IH page1 clicked) as (more & -> & Hsub & Hone & Hnone & Hsome).
      exists more. split; [done|]. split; [by apply sublist_cons|].
      split; [done|]. split.
      * intros Hall. apply Hnone. intros p s Hs. apply Hall. by right.
      * intros s [->|Hs]%elem_of_cons Hs'; [|by apply (Hsome s)].
        specialize (Hs' page). by rewrite Hc in Hs'.
Qed.

(** X20. The overlay pass clicks selectors of its list in the order of the
    list, each at most once, and returns without raising; when the pause
    after a click does not fail it dismisses at most one overlay, so a
    second banner stays; it clicks nothing exactly when no click can
    succeed, and something when some selector of the list can always be
    clicked. *)
Theorem handle_overlays_clicks (page : Page) :
  let clicked := (_handle_overlays Page click wait_for_timeout page).2 in
  clicked `sublist_of` overlay_selectors /\ NoDup clicked /\
  ((forall p ms, (wait_for_timeout p ms).2 = true) -> length clicked <= 1) /\
  ((forall p selector, selector ∈ overlay_selectors -> (click p selector).2 = false) ->
   clicked = []) /\
  (forall selector, selector ∈ overlay_selectors ->
     (forall p, (click p selector).2 = true) -> clicked <> []).
Proof.
  intros clicked. unfold clicked, _handle_overlays.
  destruct (overlay_loop_clicked overlay_selectors page [])
    as (more & -> & Hsub & Hone & Hnone & Hsome).
  cbn [app]. split; [done|]. split; [|done].
  eapply sublist_NoDup; [|exact Hsub].
  apply (bool_decide_unpack _). vm_compute. reflexivity.
Qed.

End OverlayFacts.

Section ScrollFacts.
Import Overlays.

(** The number of scroll positions below [totalHeight] from [position] on. *)
Lemma scroll_count_step (totalHeight position : Z) :
  (position < totalHeight)%Z ->
  Z.to_nat ((totalHeight - position + 299) / 300)
  = S (Z.to_nat ((totalHeight - (position + 300) + 299) / 300)).
Proof.
  intros H.
  replace (totalHeight - position + 299)%Z
    with (totalHeight - (position + 300) + 299 + 1 * 300)%Z by lia.
  rewrite Z.div_add by lia.
  assert (0 <= (totalHeight - (position + 300) + 299) / 300)%Z
    by (apply Z.div_pos; lia).
  lia.
Qed.

Lemma scroll_loop_enough (fuel : nat) (totalHeight position : Z) :
  Z.to_nat ((totalHeight - position + 299) / 300) < fuel ->
  scroll_loop fuel totalHeight position
  = Some ((fun i => (position + 300 * Z.of_nat i)%Z)
            <$> seq 0 (Z.to_nat ((totalHeight - position + 299) / 300))).
Proof.
  revert position. induction fuel as [|fuel IH]; intros position Hf; [lia|].
  cbn [scroll_loop]. destruct (Z.ltb_spec position totalHeight) as [Hlt|Hge].
  - rewrite scroll_count_step in Hf |- * by done.
    rewrite IH by lia. cbn [fmap option_fmap option_map seq list_fmap].
    f_equal. f_equal; [lia|].
    rewrite <- seq_shift, <- list_fmap_compose.
    apply list_fmap_ext. intros _ i _. cbn. lia.
  - replace (Z.to_nat ((totalHeight - position + 299) / 300)) with 0; [done|].
    assert ((totalHeight - position + 299) / 300 < 1)%Z
      by (apply Z.div_lt_upper_bound; lia).
    lia.
Qed.

(** X21. The scroll script ends, and it leaves no band of the page out:
    with enough fuel for its loop (one more than the number of bands) it
    scrolls to 0, 300, 600, ... below the larger of the two heights, then
    back to the top; every offset of the page lies less than 300 pixels
    below a position it stopped at. *)
Theorem comprehensive_scroll_covers (fuel : nat) (scrollHeight_body scrollHeight_root : Z) :
  let totalHeight := Z.max scrollHeight_body scrollHeight_root in
  let bands := Z.to_nat ((totalHeight + 299) / 300) in
  bands < fuel ->
  exists positions,
    _comprehensive_scroll fuel scrollHeight_body scrollHeight_root = Some positions /\
    positions = ((fun i => (300 * Z.of_nat i)%Z) <$> seq 0 bands) ++ [0%Z] /\
    last positions = Some 0%Z /\
    (forall y, (0 <= y < totalHeight)%Z ->
       exists p, p ∈ positions /\ (p <= y < p + 300)%Z).
Proof.
  intros totalHeight bands Hf. unfold _comprehensive_scroll. fold totalHeight.
  rewrite scroll_loop_enough
    by (replace (totalHeight - 0 + 299)%Z with (totalHeight + 299)%Z by lia; exact Hf).
  replace (totalHeight - 0 + 299)%Z with (totalHeight + 299)%Z by lia. fold bands.
  eexists. split; [reflexivity|]. split; [done|]. split; [by rewrite last_snoc|].
  intros y Hy. exists (300 * (y / 300))%Z. split.
  - apply elem_of_app. left. apply list_elem_of_fmap.
    exists (Z.to_nat (y / 300)). split.
    + assert (0 <= y / 300)%Z by (apply Z.div_pos; lia). lia.
    + apply elem_of_seq. split; [lia|]. unfold bands.
      assert (0 <= y / 300)%Z by (apply Z.div_pos; lia).
      assert (y / 300 < (totalHeight + 299) / 300)%Z; [|lia].
      apply Z.div_lt_upper_bound; [lia|].
      pose proof (Z.mul_div_le (totalHeight + 299) 300 ltac:(lia)) as H1.
      pose proof (Z.mod_pos_bound (totalHeight + 299) 300 ltac:(lia)) as H2.
      pose proof (Z.div_mod (totalHeight + 299) 300 ltac:(lia)) as H3.
      pose proof (Z.mul_div_le y 300 ltac:(lia)) as H4.
      lia.
  - pose proof (Z.div_mod y 300 ltac:(lia)) as H1.
    pose proof (Z.mod_pos_bound y 300 ltac:(lia)) as H2. lia.
Qed.

Lemma comprehensive_scroll_covers_witness :
  _comprehensive_scroll 10 700 650 = Some [0; 300; 600; 0]%Z.
Proof.
  destruct (comprehensive_scroll_covers 10 700 650) as (positions & -> & -> & _).
  - vm_compute. lia.
  - reflexivity.
Defined.

End ScrollFacts.

(** ** The limit of [/extract-images] and the cap of the script *)
Section FilterRank.
Import Py Filter.

(** X23. However large the requested limit, and also without one, a
    response to [/extract-images] lists at most the 100 images the script
    keeps, and [total_images] counts the images listed. *)
Theorem extract_images_at_most_100 (request : ImageExtractRequest) (origin : string)
    (raws : list Ranker.RawCandidate) (found : Z) (shot : string)
    (resp : ImageExtractResponse) :
  extract_images request
    (ScrapeData {| allImages := Ranker.allImages (Ranker.rank origin raws);
                   totalImagesFound := found; screenshot := shot |}) = inr resp ->
  total_images resp = Z.of_nat (length (images resp)) /\
  (total_images resp <= 100)%Z.
Proof.
  unfold extract_images, extract_images_body, try_except. cbn [allImages].
  destruct (filter_images request _) as [e|filtered] eqn:Hf.
  { intros [= <-]. cbn. lia. }
  cbn [mbind exn_bind mret exn_ret]. intros [= <-]. cbn [total_images images].
  split; [done|].
  destruct (filter_images_sound _ _ _ Hf) as [Hsub _].
  apply sublist_length in Hsub. rewrite length_fmap in Hsub.
  pose proof (sublist_length _ _ (list_slice_to_sublist filtered (image_limit request))).
  assert (length (Ranker.allImages (Ranker.rank origin raws)) <= 100)
    by (unfold Ranker.rank; cbn [Ranker.allImages]; rewrite length_take; lia).
  lia.
Qed.

Lemma extract_images_at_most_100_witness :
  let raw s := {| Ranker.raw_src := s; Ranker.raw_alt := ""; Ranker.raw_width := 300;
                  Ranker.raw_height := 200; Ranker.raw_context := "img-element" |} in
  exists resp,
    extract_images
      {| url := "https://site.test/"; image_limit := Some 500%Z; min_width := Some 10%Z;
         min_height := Some 10%Z; include_small := Some true |}
      (ScrapeData {| allImages := Ranker.allImages
                                    (Ranker.rank "https://site.test"
                                       [raw "/a.png"; raw "/b.png"; raw "/a.png"]);
                     totalImagesFound := 2; screenshot := "" |}) = inr resp /\
    total_images resp = 2%Z.
Proof.
  intros raw.
  match goal with |- exists resp, ?x = inr resp /\ _ =>
    destruct x as [e|resp] eqn:E end.
  { vm_compute in E. discriminate E. }
  exists resp. split; [reflexivity|].
  destruct (extract_images_at_most_100 _ _ _ _ _ _ E) as [-> _].
  vm_compute in E. injection E as <-. reflexivity.
Defined.

End FilterRank.

(** ** The heading hierarchy *)
Section SoupFacts.
Import Py Soup.

Lemma heading_dict_level (heading : Tag) :
  tag_name heading ∈ heading_names ->
  exists level, (1 <= level <= 6)%Z /\
    heading_dict heading
    = Some (PDict [("level", PInt level);
                   ("text", PStr (tag_text heading));
                   ("id", PStr (default "" (tag_id heading)));
                   ("class", PList (PStr <$> default [] (tag_class heading)))]).
Proof.
  unfold heading_dict, heading_names. intros Hin.
  repeat (apply elem_of_cons in Hin as [->|Hin]);
    [exists 1%Z|exists 2%Z|exists 3%Z|exists 4%Z|exists 5%Z|exists 6%Z|
     by apply elem_of_nil in Hin]; (split; [lia|reflexivity]).
Qed.

(** X24. The heading hierarchy is always built: [int(heading.name[1])]
    never fails on a tag that [find_all] returns; there is one entry for
    each [h1] to [h6] tag, in document order, with the tag's text, and its
    level lies between 1 and 6. *)
Theorem headings_hierarchy_levels (soup : list Tag) :
  exists headings,
    _extract_headings_hierarchy soup = Some headings /\
    length headings = length (find_all heading_names soup) /\
    (forall i heading, find_all heading_names soup !! i = Some heading ->
       exists level, (1 <= level <= 6)%Z /\
         headings !! i
         = Some (PDict [("level", PInt level);
                        ("text", PStr (tag_text heading));
                        ("id", PStr (default "" (tag_id heading)));
                        ("class", PList (PStr <$> default [] (tag_class heading)))])).
Proof.
  unfold _extract_headings_hierarchy.
  assert (Forall (fun tag => tag_name tag ∈ heading_names) (find_all heading_names soup))
    as Hall.
  { unfold find_all. apply Forall_forall. by intros tag [H _]%list_elem_of_filter. }
  induction Hall as [|tag tags Htag Htags (headings & Hm & Hlen & Hi)].
  - exists []. by split.
  - destruct (heading_dict_level tag Htag) as (level & Hl & Hd).
    cbn [mapM]. rewrite Hd, Hm. cbn [mbind option_bind mret option_ret].
    eexists. split; [reflexivity|]. split; [cbn; by rewrite Hlen|].
    intros [|i] heading; cbn [lookup list_lookup].
    + intros [= <-]. by exists level.
    + apply Hi.
Qed.

End SoupFacts.

(** ** The cleaning of the model's answer in [create_html] *)
Section CleanHtmlFacts.
Import Str Clone.

(** X25. What [create_html] returns for the answer of the model: with a
    closed [```html] fence the stripped text between the fences, with an
    opening fence that is never closed the whole answer, fence included
    (nothing is cut then), and without a fence the whole answer; in each case
    with a DOCTYPE line put before it unless it starts with [<!DOCTYPE]. *)
Theorem clean_html_cases (answer : string) :
  let with_doctype html :=
    if starts_with "<!DOCTYPE" html then html
    else "<!DOCTYPE html>" +:+ nl +:+ html in
  (forall pre body post,
     answer = pre +:+ "```html" +:+ body +:+ "```" +:+ post ->
     find_at "```html" answer 0 = Some (String.length pre) ->
     find_at "```" (body +:+ "```" +:+ post) 0 = Some (String.length body) ->
     clean_html answer = with_doctype (strip body)) /\
  (forall pre body,
     answer = pre +:+ "```html" +:+ body ->
     find_at "```html" answer 0 = Some (String.length pre) ->
     contains "```" body = false ->
     clean_html answer = with_doctype answer) /\
  (contains "```html" answer = false -> clean_html answer = with_doctype answer).
Proof.
  intros with_doctype. unfold with_doctype, clean_html. split; [|split].
  - intros pre body post -> H1 H2.
    assert (contains "```html" (pre +:+ "```html" +:+ body +:+ "```" +:+ post) = true) as ->.
    { apply find_at_contains. by eexists. }
    rewrite (find_first _ _ _ H1).
    replace (Z.of_nat (String.length pre) + 7)%Z
      with (Z.of_nat (String.length (pre +:+ "```html")))
      by (rewrite length_append; simpl; lia).
    rewrite <- (append_assoc pre "```html").
    rewrite (find_from _ _ _ _ H2).
    destruct (Z.eqb_spec (Z.of_nat (String.length (pre +:+ "```html") + String.length body))
                (-1)) as [?|_]; [lia|]. cbn [negb].
    rewrite slice_inside by (rewrite !length_append; lia).
    replace (String.length (pre +:+ "```html") + String.length body
             - String.length (pre +:+ "```html")) with (String.length body) by lia.
    rewrite substring_middle. by destruct (starts_with "<!DOCTYPE" (strip body)).
  - intros pre body -> H1 H2.
    assert (contains "```html" (pre +:+ "```html" +:+ body) = true) as ->.
    { apply find_at_contains. by eexists. }
    rewrite (find_first _ _ _ H1).
    replace (Z.of_nat (String.length pre) + 7)%Z
      with (Z.of_nat (String.length (pre +:+ "```html")))
      by (rewrite length_append; simpl; lia).
    assert (find "```" (pre +:+ "```html" +:+ body)
              (Z.of_nat (String.length (pre +:+ "```html"))) = (-1)%Z) as ->.
    { rewrite <- (append_assoc pre "```html"). by apply find_from_none. }
    change (negb (-1 =? -1)%Z) with false. cbv iota.
    by destruct (starts_with "<!DOCTYPE" (pre +:+ "```html" +:+ body)).
  - intros ->. by destruct (starts_with "<!DOCTYPE" answer).
Qed.

(** The two generators differ on an unclosed fence: [create_html] keeps the
    answer whole, the fence with it. *)
Example clean_html_unclosed_fence :
  clean_html ("```html" +:+ nl +:+ "<html><body>x</body></html>")
  = "<!DOCTYPE html>" +:+ nl +:+ "```html" +:+ nl +:+ "<html><body>x</body></html>".
Proof. reflexivity. Qed.

End CleanHtmlFacts.
